(** * PyLabFlow transfer subsystem: a shallow embedding and its properties

    The development follows the two source files of the repository:
    - [src/plf/_transfer_utils.py]: the lineage-backed [TransferContext]
      (dependency walk, path and location remapping);
    - [src/plf1/transfer.py]: role gates, archive export and import, and
      the clone report.

    Python sets and dicts are finite sets and maps, paths are the tuples
    that [pathlib] calls [parts], and every operation that touches the disk
    is a function on an explicit world in which effects made before an
    exception is raised stay visible afterwards. *)

From Stdlib Require Import Ascii.
From stdpp Require Import base option list strings gmap sets fin_maps relations.

Set Warnings "-clear-no-such-hyp,-register-all".

(** ** Exceptions and outcomes *)

Inductive exn : Type :=
| RuntimeError (msg : string)
| ValueError (msg : string)
| TypeError (msg : string)
| KeyError (key : string)
| AttributeError (msg : string)
| OSError (msg : string)
| BadZipFile
| JSONDecodeError.

Inductive outcome (A : Type) : Type :=
| Ok (a : A)
| Raise (e : exn).
Arguments Ok {A} a.
Arguments Raise {A} e.

Definition raised {A} (o : outcome A) : bool :=
  match o with Ok _ => false | Raise _ => true end.

(** ** Python strings *)

Module PyStr.

(** [s.startswith(pre)] *)
Definition startswith (s pre : string) : bool := String.prefix pre s.

(** [s[n:]] *)
Fixpoint drop (n : nat) (s : string) : string :=
  match n, s with
  | 0, _ => s
  | S n', String _ s' => drop n' s'
  | S _, EmptyString => EmptyString
  end.

(** [sub in s] *)
Fixpoint contains (sub s : string) : bool :=
  String.prefix sub s ||
  match s with
  | EmptyString => false
  | String _ s' => contains sub s'
  end.

(** [s.replace(old, new, 1)] for a [str] argument [new]: the leftmost
    occurrence of [old] is replaced. *)
Fixpoint replace_first (s old new : string) : string :=
  if String.prefix old s then new +:+ drop (String.length old) s
  else match s with
       | EmptyString => EmptyString
       | String c s' => String c (replace_first s' old new)
       end.

(** [s.split(sep)] for a one-character separator. *)
Fixpoint split_on (sep : Ascii.ascii) (s : string) : list string :=
  match s with
  | EmptyString => [EmptyString]
  | String c s' =>
      if Ascii.eqb c sep then EmptyString :: split_on sep s'
      else match split_on sep s' with
           | seg :: segs => String c seg :: segs
           | [] => [String c EmptyString]
           end
  end.

End PyStr.

(** ** [pathlib] paths on a POSIX system

    A path is the tuple [PurePosixPath.parts]: the root, when there is one,
    followed by the components. *)

Abbreviation path := (list string).

Module PyPath.

Definition slash : Ascii.ascii := Ascii.ascii_of_nat 47.

(** The root of a path string: ["//"] for exactly two leading slashes,
    ["/"] for any other number of them. *)
Definition root_of (s : string) : path :=
  if String.prefix "/" s then
    if String.prefix "//" s && negb (String.prefix "///" s) then ["//"]
    else ["/"]
  else [].

(** The components: empty ones and ["."] are dropped, [".."] is kept. *)
Definition segments (s : string) : list string :=
  filter (λ seg, seg ≠ "" ∧ seg ≠ ".") (PyStr.split_on slash s).

(** [Path(s)] *)
Definition Path (s : string) : path := root_of s ++ segments s.

(** [p.is_absolute()] *)
Definition is_absolute (p : path) : bool :=
  match p with
  | r :: _ => String.prefix "/" r
  | [] => false
  end.

(** [p / q]: an absolute right operand replaces the left one. *)
Definition joinpath (p q : path) : path :=
  if is_absolute q then q else p ++ q.

(** [p.as_posix()], which is also [str(p)]. *)
Definition as_posix (p : path) : string :=
  match p with
  | [] => "."
  | r :: rest =>
      if String.prefix "/" r then r +:+ String.concat "/" rest
      else String.concat "/" p
  end.

Fixpoint strip_prefix (base p : path) : option path :=
  match base, p with
  | [], _ => Some p
  | b :: base', x :: p' =>
      if decide (b = x) then strip_prefix base' p' else None
  | _ :: _, [] => None
  end.

(** [p.relative_to(base)] *)
Definition relative_to (p base : path) : outcome path :=
  match strip_prefix base p with
  | Some rel => Ok rel
  | None => Raise (ValueError "path is not in the subpath of base")
  end.

(** [p.parent]: the root and the empty path are their own parents. *)
Definition parent (p : path) : path :=
  match p with
  | [r] => if String.prefix "/" r then [r] else []
  | _ => removelast p
  end.

(** [p.name] *)
Definition name (p : path) : string :=
  match List.last p "" with
  | r => if is_absolute [r] then "" else r
  end.

(** [p.resolve()]: the model has no symbolic links, no working directory
    and no [".."] collapsing; the lab root is taken to be given in resolved
    form. *)
Definition resolve (p : path) : path := p.

(** [os.path.normpath] on the components, as [ZipInfo.from_file] applies
    it to an archive name: [".."] cancels the component before it. *)
Fixpoint normparts (acc segs : list string) : list string :=
  match segs with
  | [] => rev acc
  | seg :: segs' =>
      if decide (seg = "..") then
        match acc with
        | a :: acc' =>
            if decide (a = "..") then normparts (seg :: acc) segs'
            else normparts acc' segs'
        | [] => normparts [seg] segs'
        end
      else normparts (seg :: acc) segs'
  end.

(** Leading [".."] components, which [normpath] drops below the root. *)
Fixpoint drop_pardirs (segs : list string) : list string :=
  match segs with
  | seg :: segs' => if decide (seg = "..") then drop_pardirs segs' else segs
  | [] => []
  end.

(** [os.path.normpath] on a whole path: below a root no [".."] is left,
    a relative path keeps the leading ones. *)
Definition normpath (p : path) : path :=
  match p with
  | r :: segs =>
      if String.prefix "/" r then r :: drop_pardirs (normparts [] segs)
      else normparts [] p
  | [] => []
  end.

End PyPath.

Notation "p // s" := (PyPath.joinpath p (PyPath.Path s))
  (at level 40, left associativity).

(** ** JSON values, file contents and the world *)

(** Python values that travel through [json]: a [dict] is kept as its
    items in insertion order. *)
Inductive json : Type :=
| JNull
| JBool (b : bool)
| JNum (n : Z)
| JStr (s : string)
| JList (items : list json)
| JDict (items : list (string * json)).

(** [d.get(k)] on the items of a dict. *)
Fixpoint dict_get (k : string) (items : list (string * json)) : option json :=
  match items with
  | [] => None
  | (k', v) :: items' => if decide (k' = k) then Some v else dict_get k items'
  end.

(** [d[k] = v]: an existing key keeps its position. *)
Fixpoint dict_set (k : string) (v : json) (items : list (string * json))
    : list (string * json) :=
  match items with
  | [] => [(k, v)]
  | (k', v') :: items' =>
      if decide (k' = k) then (k, v) :: items'
      else (k', v') :: dict_set k v items'
  end.

(** Truthiness of a value, as [if not x] tests it. *)
Definition json_truthy (j : json) : bool :=
  match j with
  | JNull => false
  | JBool b => b
  | JNum n => negb (Z.eqb n 0)
  | JStr s => negb (String.eqb s "")
  | JList l => negb (bool_decide (l = []))
  | JDict l => negb (bool_decide (l = []))
  end.

(** What a file holds. A file whose bytes are a JSON document is [Doc];
    [Text] stands for bytes that are neither JSON nor a zip archive; an
    archive is the list of its members in the order they were written. *)
Inductive fdata : Type :=
| Text (s : string)
| Doc (j : json)
| Zip (members : list (string * fdata)).

Abbreviation member := (string * fdata)%type.

(** [json.loads] on the bytes of a file or archive member. *)
Definition json_loads (d : fdata) : outcome json :=
  match d with
  | Doc j => Ok j
  | _ => Raise JSONDecodeError
  end.

(** The shared settings read by [get_shared_data()]. *)
Record Settings : Type := {
  data_path : string;
  lab_id : option string;
  lab_role : option string
}.

(** The [TransferContext] of [plf1/transfer.py]. *)
Record RuntimeContext : Type := {
  rc_path_map : list (string * string);
  rc_component_map : list (string * json);
  rc_transfer_id : option string
}.

(** The world an operation runs in: regular files, directories, and the
    process-wide settings with their [transfer_context] slot. *)
Record World : Type := {
  files : gmap path fdata;
  dirs : gset path;
  settings : Settings;
  transfer_context : option RuntimeContext
}.

Definition set_files (f : gmap path fdata → gmap path fdata) (w : World)
    : World :=
  {| files := f (files w); dirs := dirs w; settings := settings w;
     transfer_context := transfer_context w |}.

Definition set_dirs (f : gset path → gset path) (w : World) : World :=
  {| files := files w; dirs := f (dirs w); settings := settings w;
     transfer_context := transfer_context w |}.

Definition set_transfer_context (c : option RuntimeContext) (w : World)
    : World :=
  {| files := files w; dirs := dirs w; settings := settings w;
     transfer_context := c |}.

(** ** Computations that read and write the world and may raise

    The world is returned also when an exception is raised: what was
    written before the [raise] stays written. *)

Definition M (A : Type) : Type := World → outcome A * World.

Definition ret {A} (a : A) : M A := λ w, (Ok a, w).

Definition bind {A B} (m : M A) (k : A → M B) : M B :=
  λ w, match m w with
       | (Ok a, w') => k a w'
       | (Raise e, w') => (Raise e, w')
       end.

Definition raise {A} (e : exn) : M A := λ w, (Raise e, w).

Definition get_world : M World := λ w, (Ok w, w).

Definition modify (f : World → World) : M unit := λ w, (Ok (), f w).

(** An [outcome] computed without touching the world. *)
Definition lift {A} (o : outcome A) : M A := λ w, (o, w).

(** [try: m except Exception: handler] *)
Definition try_except {A} (m : M A) (handler : exn → M A) : M A :=
  λ w, match m w with
       | (Ok a, w') => (Ok a, w')
       | (Raise e, w') => handler e w'
       end.

Notation "'do' x <- m ; k" := (bind m (λ x, k))
  (at level 10, x name, m at level 100, k at level 200,
   format "'[v' 'do'  x  <-  m ; '/' k ']'").
Notation "m ;; k" := (bind m (λ _, k))
  (at level 100, k at level 200, right associativity).

(** [for x in l: body x] *)
Fixpoint for_each {A} (l : list A) (body : A → M unit) : M unit :=
  match l with
  | [] => ret ()
  | x :: l' => body x ;; for_each l' body
  end.

(** ** The file system

    A file or a directory is recorded under its normalised path. The
    operations below take a path as it is given, without resolving a
    [".."] in it: they are exact for the paths without [".."], and
    [zipfile] normalises the paths it writes to before it reaches them
    (see [Zipfile.extract_member]). There are no symbolic links. *)

Module Fs.
Import PyPath.

Definition is_root (p : path) : bool :=
  match p with
  | [] => true
  | [r] => String.prefix "/" r
  | _ => false
  end.

(** [p.is_dir()]: the roots and the working directory always exist. *)
Definition is_dir (w : World) (p : path) : bool :=
  bool_decide (p ∈ dirs w) || is_root p.

(** [p.is_file()] *)
Definition is_file (w : World) (p : path) : bool :=
  bool_decide (is_Some (files w !! p)).

(** [p.exists()] *)
Definition exists_ (w : World) (p : path) : bool := is_dir w p || is_file w p.

(** [p.mkdir(parents=..., exist_ok=...)], following [pathlib]: a missing
    parent is created first when [parents] is set. [n] bounds the number of
    ancestors visited. *)
Fixpoint mkdir_rec (n : nat) (parents exist_ok : bool) (p : path) : M unit :=
  do w <- get_world;
  if is_dir w p || is_file w p then
    if exist_ok && is_dir w p then ret ()
    else raise (OSError "FileExistsError")
  else if is_dir w (parent p) then modify (set_dirs (λ ds, {[p]} ∪ ds))
  else if is_file w (parent p) then raise (OSError "NotADirectoryError")
  else if negb parents then raise (OSError "FileNotFoundError")
  else match n with
       | 0 => raise (OSError "FileNotFoundError")
       | S n' => mkdir_rec n' true true (parent p) ;;
                 mkdir_rec n' false exist_ok p
       end.

Definition mkdir (parents exist_ok : bool) (p : path) : M unit :=
  mkdir_rec (length p) parents exist_ok p.

(** [open(p, "rb").read()] *)
Definition read_file (p : path) : M fdata :=
  do w <- get_world;
  match files w !! p with
  | Some d => ret d
  | None => raise (OSError "FileNotFoundError")
  end.

(** [open(p, "wb").write(d)] *)
Definition write_file (p : path) (d : fdata) : M unit :=
  do w <- get_world;
  if is_dir w p then raise (OSError "IsADirectoryError")
  else if negb (is_dir w (parent p)) then raise (OSError "FileNotFoundError")
  else modify (set_files (λ fs, <[p := d]> fs)).

(** [p.unlink()] *)
Definition unlink (p : path) : M unit :=
  do w <- get_world;
  if is_file w p then modify (set_files (λ fs, delete p fs))
  else raise (OSError "unlink: not a regular file").

Definition under (p q : path) : bool :=
  bool_decide (is_Some (strip_prefix p q)).

(** [shutil.rmtree(p)] *)
Definition rmtree (p : path) : M unit :=
  do w <- get_world;
  if is_dir w p then
    modify (λ w, set_dirs (filter (λ q, ¬ under p q))
                   (set_files (filter (λ kv, ¬ under p kv.1)) w))
  else raise (OSError "NotADirectoryError").

(** The regular files that [p.rglob("*")] yields: everything strictly
    below [p]. The snapshot is taken when the loop starts. *)
Definition rglob_files (w : World) (p : path) : list path :=
  filter (λ q, under p q ∧ q ≠ p) (fst <$> map_to_list (files w)).

(** The sub-directories that [p.iterdir()] yields. *)
Definition iterdir_dirs (w : World) (p : path) : list path :=
  filter (λ q, parent q = p ∧ q ≠ p) (elements (dirs w)).

End Fs.

(** ** Dynamic typing: the operations the code applies to JSON values *)

Module PyObj.

(** [j.get(k)] *)
Definition py_get (j : json) (k : string) : outcome (option json) :=
  match j with
  | JDict items => Ok (dict_get k items)
  | _ => Raise (AttributeError "object has no attribute 'get'")
  end.

(** [j[k]] *)
Definition py_item (j : json) (k : string) : outcome json :=
  match j with
  | JDict items =>
      match dict_get k items with
      | Some v => Ok v
      | None => Raise (KeyError k)
      end
  | _ => Raise (TypeError "object is not subscriptable")
  end.

(** A value used where [pathlib] needs a [str]. *)
Definition as_str (j : json) : outcome string :=
  match j with
  | JStr s => Ok s
  | _ => Raise (TypeError "expected str, bytes or os.PathLike object")
  end.

(** [v == s] for a value that may be [None] and a string literal. *)
Definition eq_str (v : option json) (s : string) : bool :=
  match v with
  | Some (JStr t) => bool_decide (t = s)
  | _ => false
  end.

(** [len(j)] *)
Definition py_len (j : json) : outcome nat :=
  match j with
  | JStr s => Ok (String.length s)
  | JList l => Ok (length l)
  | JDict items => Ok (length items)
  | _ => Raise (TypeError "object has no len()")
  end.

(** [isinstance(j, str)] *)
Definition is_str (j : json) : bool :=
  match j with JStr _ => true | _ => false end.

(** An argument that is either a [str] or a [pathlib.Path]. *)
Inductive strarg : Type :=
| AStr (s : string)
| APath (p : path).

(** [s.replace(old, new, 1)]: the replacement must be a [str]. *)
Definition str_replace (s old : string) (new : strarg) : outcome string :=
  match new with
  | AStr n => Ok (PyStr.replace_first s old n)
  | APath _ =>
      Raise (TypeError "replace() argument 2 must be str, not PosixPath")
  end.

End PyObj.

(** ** [zipfile] *)

Module Zipfile.
Import PyPath.

(** [zipfile.ZipFile(p)]: the members, in archive order ([infolist()]). *)
Definition open_read (p : path) : M (list member) :=
  do d <- Fs.read_file p;
  match d with
  | Zip ms => ret ms
  | _ => raise BadZipFile
  end.

(** The argument of the [KeyError] that [zf.getinfo(name)] raises for a
    name that is not in the archive. The name is shown as [repr] shows a
    string without quotes, backslashes or control characters: between
    single quotes. *)
Definition no_item (name : string) : string :=
  "There is no item named '" +:+ name +:+ "' in the archive".

(** [zf.read(name)]: when a name occurs twice, the later member wins. *)
Definition read (ms : list member) (name : string) : outcome fdata :=
  match filter (λ m, m.1 = name) ms with
  | [] => Raise (KeyError (no_item name))
  | m :: found => Ok (List.last found m).2
  end.

(** [zipfile.ZipFile(p, "w", ...)]: the file is created, or truncated. *)
Definition create (p : path) : M unit :=
  Fs.write_file p (Zip []).

(** A member is appended to the archive being written at [zp]. *)
Definition append (zp : path) (m : member) : M unit :=
  modify (set_files (λ fs,
    match fs !! zp with
    | Some (Zip ms) => <[zp := Zip (ms ++ [m])]> fs
    | _ => fs
    end)).

(** The member name that [ZipInfo.from_file] derives from [arcname]:
    normalised, and relative. *)
Definition arcname (s : string) : string :=
  let segs := normparts [] (segments s) in
  let segs :=
    if String.prefix "/" s
    then drop_pardirs segs else segs in
  match segs with
  | [] => "."
  | _ => String.concat "/" segs
  end.

(** [zf.write(src, arc)]: a directory becomes an empty entry with a
    trailing slash. *)
Definition write (zp src : path) (arc : string) : M unit :=
  do w <- get_world;
  if Fs.is_dir w src then append zp (arcname arc +:+ "/", Text "")
  else do d <- Fs.read_file src; append zp (arcname arc, d).

(** [zf.writestr(name, data)] *)
Definition writestr (zp : path) (name : string) (d : fdata) : M unit :=
  append zp (name, d).

Definition is_dir_entry (name : string) : bool :=
  match List.last (PyStr.split_on slash name) "x" with
  | EmptyString => true
  | _ => false
  end.

(** The components of a member name that [zf.extract] keeps: empty ones,
    ["."] and [".."] are dropped. *)
Definition member_parts (name : string) : list string :=
  filter (λ seg, seg ∉ [""; "."; ".."]) (PyStr.split_on slash name).

(** [zf.extract(member, target_dir)]: the kept components of the name are
    joined to the target directory and the result goes through
    [os.path.normpath], so a [".."] of [target_dir] is cancelled before
    anything is written; missing upper directories are created. *)
Definition extract_member (target_dir : path) (m : member) : M unit :=
  let target := normpath (target_dir ++ member_parts m.1) in
  do w <- get_world;
  (if Fs.exists_ w (parent target) then ret ()
   else Fs.mkdir true false (parent target)) ;;
  if is_dir_entry m.1 then
    do w <- get_world;
    if Fs.is_dir w target then ret () else Fs.mkdir false false target
  else Fs.write_file target m.2.

(** [zf.extractall(target_dir)] *)
Definition extractall (ms : list member) (target_dir : path) : M unit :=
  for_each ms (extract_member target_dir).

(** The name of the last member of the archive stored in a file. *)
Definition last_member_name (d : option fdata) : option string :=
  match d with
  | Some (Zip ms) => fst <$> last ms
  | _ => None
  end.

End Zipfile.

(** ** [plf1/transfer.py] *)

(** The pipeline object, an external collaborator: it is consulted, never
    written through. [pl_load] stands for [P.load(pplid)] and for the
    constructor [PipeLine(pplid)], [pl_paths] for the artifact kinds
    [P.paths] of the loaded pipeline. *)
Record PipeLineAPI : Type := {
  pl_verify : World → string → bool;
  pl_load : World → string → outcome unit;
  pl_paths : World → string → list string;
  pl_get_path : World → string → string → outcome string
}.

(** What [datetime.utcnow()] and [uuid4()] return during one export. *)
Record Clock : Type := {
  now_stamp : string;
  now_iso : string;
  uuid_hex : string
}.

Module Transfer.
Import PyPath PyObj.

Definition get_shared_data : M Settings :=
  do w <- get_world; ret (settings w).

Definition _ensure_base (st : Settings) : M unit :=
  if decide (lab_role st = Some "base") then ret ()
  else raise (RuntimeError "Operation allowed only in BASE lab").

Definition _ensure_remote (st : Settings) : M unit :=
  if decide (lab_role st = Some "remote") then ret ()
  else raise (RuntimeError "Operation allowed only in REMOTE lab").

(** *** TransferContext *)

(** [d[k] = v] on the items of a dict of strings: a key that is already
    there keeps its position and takes the new value. *)
Fixpoint path_map_set (k v : string) (items : list (string * string))
    : list (string * string) :=
  match items with
  | [] => [(k, v)]
  | (k', v') :: items' =>
      if decide (k' = k) then (k, v) :: items'
      else (k', v') :: path_map_set k v items'
  end.

(** The dict comprehension of the constructor, one item at a time:
    [acc] is the dict built so far. *)
Fixpoint normalise_path_map_loop (acc : list (string * string))
    (items : list (string * json)) : outcome (list (string * string)) :=
  match items with
  | [] => Ok acc
  | (k, v) :: items' =>
      match as_str v with
      | Ok v' =>
          normalise_path_map_loop
            (path_map_set (as_posix (Path k)) (as_posix (Path v')) acc) items'
      | Raise e => Raise e
      end
  end.

Definition normalise_path_map (items : list (string * json))
    : outcome (list (string * string)) :=
  normalise_path_map_loop [] items.

(** The constructor of [TransferContext], called with keyword arguments:
    it accepts [path_map], [component_map] and [transfer_id] only. *)
Definition TransferContext_init (kwargs : list (string * json))
    : outcome RuntimeContext :=
  match filter (λ kv, kv.1 ∉ ["path_map"; "component_map"; "transfer_id"])
          kwargs with
  | (k, _) :: _ =>
      Raise (TypeError ("__init__() got an unexpected keyword argument '"
                        +:+ k +:+ "'"))
  | [] =>
      let pm := from_option id JNull (dict_get "path_map" kwargs) in
      let cm := from_option id JNull (dict_get "component_map" kwargs) in
      let tid := dict_get "transfer_id" kwargs in
      match (if json_truthy pm then
               match pm with
               | JDict items => normalise_path_map items
               | _ => Raise (AttributeError "object has no attribute 'items'")
               end
             else Ok []) with
      | Raise e => Raise e
      | Ok path_map =>
          Ok {| rc_path_map := path_map;
                rc_component_map :=
                  match cm with JDict items => items | _ => [] end;
                rc_transfer_id :=
                  match tid with Some (JStr t) => Some t | _ => None end |}
      end
  end.

(** [TransferContext.map_path] *)
Fixpoint map_path_loop (path : string) (items : list (string * string))
    : string :=
  match items with
  | [] => path
  | (src, dst) :: items' =>
      if PyStr.startswith path src then PyStr.replace_first path src dst
      else map_path_loop path items'
  end.

Definition map_path (c : RuntimeContext) (path : string) : string :=
  map_path_loop (as_posix (Path path)) (rc_path_map c).

(** [TransferContext.map_component] *)
Definition map_component (c : RuntimeContext) (loc : string) : json :=
  from_option id (JStr loc) (dict_get loc (rc_component_map c)).

(** *** Safe ZIP extraction *)

(** The test of [_safe_extract] on one member name. *)
Definition unsafe_name (name : string) : bool :=
  let p := Path name in
  is_absolute p || bool_decide (".." ∈ p).

Definition _safe_extract (zip_path target_dir : path) : M unit :=
  Fs.mkdir true true target_dir ;;
  do ms <- Zipfile.open_read zip_path;
  for_each ms (λ m,
    if unsafe_name m.1 then raise (ValueError "Unsafe ZIP content detected")
    else ret ()) ;;
  Zipfile.extractall ms target_dir.

(** *** Export *)

Section WithPipeline.
Context (api : PipeLineAPI) (clock : Clock).

(** A call into the pipeline object in the current world. *)
Definition ask {A} (f : World → outcome A) : M A := λ w, (f w, w).

(** The transfer id minted by an export: a prefix, the time stamp, and the
    first six hex digits of a fresh UUID. *)
Definition mint_transfer_id (pre : string) : string :=
  pre +:+ now_stamp clock +:+ "_" +:+ String.substring 0 6 (uuid_hex clock).

Definition opt_json (o : option string) : json :=
  match o with Some s => JStr s | None => JNull end.

(** One turn of the inner loop [for art in P.paths] of the base export:
    staging failures are swallowed by [except Exception: pass]. *)
Definition stage_artifact (lab_base zp : path) (pplid art : string)
    : M unit :=
  if decide (art = "config") then ret ()
  else
    try_except
      (do s <- ask (λ w, pl_get_path api w pplid art);
       let p := resolve (Path s) in
       do w <- get_world;
       if negb (Fs.exists_ w p) then ret ()
       else if Fs.is_dir w p then
         for_each (Fs.rglob_files w p) (λ f,
           do rel <- lift (relative_to f lab_base);
           Zipfile.write zp f (as_posix rel))
       else
         do rel <- lift (relative_to p lab_base);
         Zipfile.write zp p (as_posix rel))
      (λ _, ret ()).

(** One turn of the outer loop [for pplid in ppls] of the base export. *)
Definition stage_pipeline (lab_base zp : path) (pplid : string) : M unit :=
  do w <- get_world;
  if negb (pl_verify api w pplid)
  then raise (ValueError ("Invalid pplid: " +:+ pplid))
  else
    ask (λ w, pl_load api w pplid) ;;
    do s <- ask (λ w, pl_get_path api w pplid "config");
    let cfg := resolve (Path s) in
    do arc <- lift (relative_to cfg lab_base);
    Zipfile.write zp cfg (as_posix arc) ;;
    do w <- get_world;
    for_each (pl_paths api w pplid) (stage_artifact lab_base zp pplid).

(** The [with zipfile.ZipFile(zip_path, "w", ...)] block of the base
    export. Leaving the block, normally or by an exception, closes the
    archive with the members written so far. *)
Definition write_base_archive (lab_base zp : path) (ppls : list string)
    (transfer_meta : json) : M unit :=
  Zipfile.create zp ;;
  for_each ppls (stage_pipeline lab_base zp) ;;
  Zipfile.writestr zp "transfer.json" (Doc transfer_meta).

(** [REGISTER TRANSFER]: the transfer id is appended to [clone.json]. *)
Definition register_transfer (clone_dir : path) (transfer_id : string)
    : M unit :=
  let clone_json := clone_dir // "clone.json" in
  do d <- Fs.read_file clone_json;
  do clone_cfg <- lift (json_loads d);
  match clone_cfg with
  | JDict items =>
      match dict_get "transfers" items with
      | None =>
          Fs.write_file clone_json
            (Doc (JDict (dict_set "transfers" (JList [JStr transfer_id])
                           items)))
      | Some (JList l) =>
          Fs.write_file clone_json
            (Doc (JDict (dict_set "transfers"
                           (JList (l ++ [JStr transfer_id])) items)))
      | Some _ => raise (AttributeError "object has no attribute 'append'")
      end
  | _ => raise (AttributeError "object has no attribute 'setdefault'")
  end.

(** [MOVE MODE]: every artifact other than the config is deleted. *)
Definition remove_artifact (pplid art : string) : M unit :=
  if decide (art = "config") then ret ()
  else
    do s <- ask (λ w, pl_get_path api w pplid art);
    let p := Path s in
    do w <- get_world;
    if Fs.exists_ w p then
      if Fs.is_dir w p then Fs.rmtree p else Fs.unlink p
    else ret ().

Definition remove_artifacts (ppls : list string) : M unit :=
  for_each ppls (λ pplid,
    ask (λ w, pl_load api w pplid) ;;
    do w <- get_world;
    for_each (pl_paths api w pplid) (remove_artifact pplid)).

Definition base_transfer_meta (st : Settings) (transfer_id clone_id
    transfer_type : string) (ppls : list string) : json :=
  JDict [("transfer_id", JStr transfer_id);
         ("origin_lab_id", opt_json (lab_id st));
         ("target_lab_id", JStr clone_id);
         ("direction", JStr "base_to_remote");
         ("transfer_type", JStr transfer_type);
         ("created_at", JStr (now_iso clock));
         ("ppls", JList (JStr <$> ppls))].

(** The export up to the end of the [with] block: role gate, clone
    lookup, id, archive. It returns [clone_dir], [zip_path] and
    [transfer_id] for what follows. *)
Definition build_base_archive (ppls : list string) (clone_id
    transfer_type : string) : M (path * path * string) :=
  do st <- get_shared_data;
  _ensure_base st ;;
  let lab_base := resolve (Path (data_path st)) in
  let clone_dir := lab_base // "Clones" // clone_id in
  do w <- get_world;
  if negb (Fs.exists_ w clone_dir)
  then raise (ValueError ("Clone '" +:+ clone_id +:+ "' not registered"))
  else
    let transfer_id := mint_transfer_id "t_" in
    let zip_path := clone_dir // "transfers" // (transfer_id +:+ ".zip") in
    Fs.mkdir true true (parent zip_path) ;;
    write_base_archive lab_base zip_path ppls
      (base_transfer_meta st transfer_id clone_id transfer_type ppls) ;;
    ret (clone_dir, zip_path, transfer_id).

Definition _export_base_to_remote (ppls : list string) (clone_id
    transfer_type mode : string) : M path :=
  do r <- build_base_archive ppls clone_id transfer_type;
  let '(clone_dir, zip_path, transfer_id) := r in
  register_transfer clone_dir transfer_id ;;
  (if decide (mode = "move") then remove_artifacts ppls else ret ()) ;;
  ret zip_path.

(** One turn of the inner loop of the results export. *)
Definition results_artifact (zp : path) (pplid art : string) : M unit :=
  if decide (art = "config") then ret ()
  else
    do s <- ask (λ w, pl_get_path api w pplid art);
    let p := Path s in
    do w <- get_world;
    if negb (Fs.exists_ w p) then ret ()
    else if Fs.is_dir w p then
      for_each (Fs.rglob_files w p) (λ f,
        do rel <- lift (relative_to f p);
        Zipfile.write zp f
          ("Results/" +:+ pplid +:+ "/" +:+ art +:+ "/" +:+ as_posix rel))
    else
      Zipfile.write zp p
        ("Results/" +:+ pplid +:+ "/" +:+ art +:+ "/" +:+ name p).

Definition results_meta (origin transfer_id : string)
    (prev_transfer_id : option string) (ppls : list string) : json :=
  JDict [("transfer_id", JStr transfer_id);
         ("origin_lab_id", JStr origin);
         ("prev_transfer_id", opt_json prev_transfer_id);
         ("direction", JStr "remote_to_base");
         ("transfer_type", JStr "results");
         ("created_at", JStr (now_iso clock));
         ("ppls", JList (JStr <$> ppls))].

(** The [with] block of the results export. *)
Definition write_results_archive (zp : path) (ppls : list string)
    (meta : json) : M unit :=
  Zipfile.create zp ;;
  Zipfile.writestr zp "transfer.json" (Doc meta) ;;
  for_each ppls (λ pplid,
    ask (λ w, pl_load api w pplid) ;;
    do w <- get_world;
    for_each (pl_paths api w pplid) (results_artifact zp pplid)).

Definition _export_remote_to_base (ppls : list string)
    (prev_transfer_id : option string) (mode : string) : M path :=
  do st <- get_shared_data;
  _ensure_remote st ;;
  let transfer_id := mint_transfer_id "r_" in
  let zip_path :=
    Path (data_path st) // "TransfersOut" // (transfer_id +:+ ".zip") in
  Fs.mkdir false true (parent zip_path) ;;
  do origin <- lift (match lab_id st with
                     | Some l => Ok l
                     | None => Raise (KeyError "lab_id")
                     end);
  write_results_archive zip_path ppls
    (results_meta origin transfer_id prev_transfer_id ppls) ;;
  (if decide (mode = "move") then remove_artifacts ppls else ret ()) ;;
  ret zip_path.

Definition export_transfer (ppls : list string) (clone_id : option string)
    (transfer_type : string) (prev_transfer_id : option string)
    (mode : string) : M path :=
  do st <- get_shared_data;
  let role := lab_role st in
  if decide (role = Some "base") then
    match clone_id with
    | Some c =>
        if decide (c = "")
        then raise (ValueError "clone_id required for base export")
        else _export_base_to_remote ppls c transfer_type mode
    | None => raise (ValueError "clone_id required for base export")
    end
  else if decide (role = Some "remote") then
    if decide (transfer_type ≠ "results")
    then raise (RuntimeError "Remote can only export results back to base")
    else _export_remote_to_base ppls prev_transfer_id mode
  else raise (RuntimeError "Unknown lab role").

End WithPipeline.


(** *** Import *)

(** One turn of the materialisation loop of [_import_on_remote]. *)
Definition materialize (lab_base extract_dir : path) (mode : string)
    (item : path) : M unit :=
  if decide (name item = "transfer.json") then ret ()
  else
    do rel_path <- lift (relative_to item extract_dir);
    let target := joinpath lab_base rel_path in
    Fs.mkdir true true (parent target) ;;
    do w <- get_world;
    (if Fs.exists_ w target then Fs.unlink target else ret ()) ;;
    do d <- Fs.read_file item;
    Fs.write_file target d ;;
    if decide (mode = "move") then Fs.unlink item else ret ().

Definition _import_on_remote (zip_path : path) (meta : json) (mode : string)
    : M json :=
  do st <- get_shared_data;
  let lab_base := resolve (Path (data_path st)) in
  let transfers_dir := lab_base // "Transfers" in
  Fs.mkdir false true transfers_dir ;;
  do tid_v <- lift (py_item meta "transfer_id");
  do tid <- lift (as_str tid_v);
  let extract_dir := transfers_dir // tid in
  Fs.mkdir true true extract_dir ;;
  _safe_extract zip_path extract_dir ;;
  do w <- get_world;
  for_each (Fs.rglob_files w extract_dir)
    (materialize lab_base extract_dir mode) ;;
  do path_map <- lift (py_get meta "path_map");
  do component_map <- lift (py_get meta "component_map");
  do origin <- lift (py_get meta "origin_lab_id");
  do ctx <- lift (TransferContext_init
    [("path_map", from_option id (JDict []) path_map);
     ("component_map", from_option id (JDict []) component_map);
     ("transfer_id", tid_v);
     ("origin_lab_id", from_option id JNull origin)]);
  modify (set_transfer_context (Some ctx)) ;;
  ret (JBool true).

Definition _import_on_base (zip_path : path) (meta : json) : M json :=
  do st <- get_shared_data;
  do tid_v <- lift (py_item meta "transfer_id");
  do tid <- lift (as_str tid_v);
  let results_dir := Path (data_path st) // "RemoteResults" // tid in
  _safe_extract zip_path results_dir ;;
  ret JNull.

Definition import_transfer (zip_path : path) : M json :=
  do st <- get_shared_data;
  do ms <- Zipfile.open_read zip_path;
  do raw <- lift (Zipfile.read ms "transfer.json");
  do meta <- lift (json_loads raw);
  do direction <- lift (py_get meta "direction");
  if eq_str direction "base_to_remote" then
    _ensure_remote st ;;
    _import_on_remote zip_path meta "copy"
  else if eq_str direction "remote_to_base" then
    _ensure_base st ;;
    _import_on_base zip_path meta
  else raise (RuntimeError "Unknown transfer direction").

(** *** The clone report *)

(** A [pandas.DataFrame]: its column labels and its rows, each row a
    record that maps labels to values. *)
Record DataFrame : Type := {
  columns : list string;
  records : list (list (string * json))
}.

(** [pd.DataFrame(columns=cols)] *)
Definition DataFrame_of_columns (cols : list string) : DataFrame :=
  {| columns := cols; records := [] |}.

(** [pd.DataFrame(rows)] for a list of dicts: the columns are the keys of
    the rows in order of first appearance, so no rows give no columns. *)
Definition DataFrame_of_records (rows : list (list (string * json)))
    : DataFrame :=
  {| columns :=
       foldl (λ cols row, cols ++ filter (λ k, k ∉ cols) row.*1) [] rows;
     records := rows |}.

(** [df.empty] *)
Definition df_empty (df : DataFrame) : bool :=
  bool_decide (columns df = []) || bool_decide (records df = []).

(** A value as a number: [bool] is a subclass of [int]. *)
Definition num_of (j : json) : option Z :=
  match j with
  | JNum n => Some n
  | JBool b => Some (if b then 1 else 0)%Z
  | _ => None
  end.

(** [a == b]: numbers and booleans by value, lists item by item, dicts as
    mappings. *)
Fixpoint py_eq (a b : json) {struct a} : bool :=
  match a, b with
  | JNull, JNull => true
  | JStr s, JStr t => String.eqb s t
  | JList xs, JList ys =>
      (fix items_eq (xs ys : list json) : bool :=
         match xs, ys with
         | [], [] => true
         | x :: xs', y :: ys' => py_eq x y && items_eq xs' ys'
         | _, _ => false
         end) xs ys
  | JDict xs, JDict ys =>
      Nat.eqb (length xs) (length ys) &&
      forallb (λ kv, match kv with
                     | (k, v) =>
                         match dict_get k ys with
                         | Some v' => py_eq v v'
                         | None => false
                         end
                     end) xs
  | (JBool _ | JNum _), (JBool _ | JNum _) =>
      bool_decide (num_of a = num_of b)
  | _, _ => false
  end.

(** [a < b]: numbers and booleans among themselves, strings among
    themselves, lists by their first differing items; any other pair
    raises [TypeError]. *)
Fixpoint py_lt (a b : json) {struct a} : outcome bool :=
  match a, b with
  | JStr s, JStr t => Ok (String.ltb s t)
  | JList xs, JList ys =>
      (fix items_lt (xs ys : list json) : outcome bool :=
         match xs, ys with
         | [], [] => Ok false
         | [], _ :: _ => Ok true
         | _ :: _, [] => Ok false
         | x :: xs', y :: ys' =>
             if py_eq x y then items_lt xs' ys' else py_lt x y
         end) xs ys
  | _, _ =>
      match num_of a, num_of b with
      | Some n, Some m => Ok (Z.ltb n m)
      | _, _ => Raise (TypeError "'<' not supported between instances")
      end
  end.

(** The order [sort_values] uses on one column: missing values ([None])
    go last and are not compared; the other cells are compared with [<],
    and a cell stays before one that is not smaller. *)
Definition cell_le (a b : json) : outcome bool :=
  match a, b with
  | _, JNull => Ok true
  | JNull, _ => Ok false
  | _, _ =>
      match py_lt b a with
      | Ok r => Ok (negb r)
      | Raise e => Raise e
      end
  end.

Fixpoint insert_sorted (col : string) (x : list (string * json))
    (l : list (list (string * json))) : outcome (list (list (string * json))) :=
  match l with
  | [] => Ok [x]
  | y :: l' =>
      match cell_le (from_option id JNull (dict_get col y))
                    (from_option id JNull (dict_get col x)) with
      | Ok true =>
          match insert_sorted col x l' with
          | Ok r => Ok (y :: r)
          | Raise e => Raise e
          end
      | Ok false => Ok (x :: l)
      | Raise e => Raise e
      end
  end.

(** [df.sort_values(col).reset_index(drop=True)] *)
Definition sort_values (df : DataFrame) (col : string) : outcome DataFrame :=
  if bool_decide (col ∈ columns df) then
    match foldl (λ acc x,
                   match acc with
                   | Ok l => insert_sorted col x l
                   | Raise e => Raise e
                   end) (Ok []) (records df) with
    | Ok rows => Ok {| columns := columns df; records := rows |}
    | Raise e => Raise e
    end
  else Raise (KeyError col).

Definition clone_columns : list string :=
  ["clone_id"; "clone_type"; "name"; "desc"; "created_at"; "num_transfers"].

(** The body of the [try] in [get_clones]. *)
Definition clone_record (cfg_path : path) : M (list (string * json)) :=
  do d <- Fs.read_file cfg_path;
  do cfg <- lift (json_loads d);
  do clone_id <- lift (py_get cfg "clone_id");
  do clone_type <- lift (py_get cfg "clone_type");
  do name <- lift (py_get cfg "name");
  do desc <- lift (py_get cfg "desc");
  do created_at <- lift (py_get cfg "created_at");
  do transfers <- lift (py_get cfg "transfers");
  do n <- lift (py_len (from_option id (JList []) transfers));
  ret [("clone_id", from_option id JNull clone_id);
       ("clone_type", from_option id JNull clone_type);
       ("name", from_option id JNull name);
       ("desc", from_option id JNull desc);
       ("created_at", from_option id JNull created_at);
       ("num_transfers", JNum (Z.of_nat n))].

(** One turn of the loop over [clones_root.iterdir()]: the rows gathered
    so far are extended, or the entry is skipped. Entries that are not
    directories are skipped by the first test of the loop, so the loop runs
    over the sub-directories. *)
Definition clone_turn (rows : list (list (string * json)))
    (clone_dir : path) : M (list (list (string * json))) :=
  let cfg_path := clone_dir // "clone.json" in
  do w <- get_world;
  if negb (Fs.exists_ w cfg_path) then ret rows
  else
    try_except
      (do row <- clone_record cfg_path; ret (rows ++ [row]))
      (λ _, ret rows).

Fixpoint clone_loop (rows : list (list (string * json)))
    (entries : list path) : M (list (list (string * json))) :=
  match entries with
  | [] => ret rows
  | clone_dir :: entries' =>
      do rows' <- clone_turn rows clone_dir; clone_loop rows' entries'
  end.

Definition get_clones : M DataFrame :=
  do st <- get_shared_data;
  if decide (lab_role st ≠ Some "base")
  then raise (RuntimeError "get_clones() is allowed only in BASE lab")
  else
    let clones_root := Path (data_path st) // "Clones" in
    do w <- get_world;
    if negb (Fs.exists_ w clones_root)
    then ret (DataFrame_of_columns clone_columns)
    else if negb (Fs.is_dir w clones_root)
    then raise (OSError "NotADirectoryError")
    else
      do rows <- clone_loop [] (Fs.iterdir_dirs w clones_root);
      let df := DataFrame_of_records rows in
      if negb (df_empty df) then lift (sort_values df "created_at")
      else ret df.

End Transfer.

(** ** The context mapper of [plf/_transfer_utils.py] *)

Module Mapper.
Import PyPath PyObj.

(** The lineage-backed [TransferContext]: [transfers_dir] and the loaded
    transfer configuration [_cfg]. *)
Record TransferContext : Type := {
  transfers_dir : path;
  _cfg : json
}.

Definition default_cfg : json :=
  JDict [("active_transfer_id", JNull); ("history", JList []);
         ("ppl_to_transfer", JDict [])].

Definition _load_transfer_config : M json :=
  do st <- Transfer.get_shared_data;
  let lab_base := resolve (Path (data_path st)) in
  let transfers_dir := lab_base // "Transfers" in
  Fs.mkdir false true transfers_dir ;;
  let cfg_path := transfers_dir // "transfer_config.json" in
  do w <- get_world;
  if negb (Fs.exists_ w cfg_path) then ret default_cfg
  else do d <- Fs.read_file cfg_path; lift (json_loads d).

(** [TransferContext()] *)
Definition TransferContext_init : M TransferContext :=
  do st <- Transfer.get_shared_data;
  let transfers_dir := resolve (Path (data_path st)) // "Transfers" in
  do cfg <- _load_transfer_config;
  ret {| transfers_dir := transfers_dir; _cfg := cfg |}.

Section Methods.
Context (self : TransferContext).

(** The methods below only read the disk: they are functions of the
    world. *)

Definition _load_transfer_meta (w : World) (transfer_id : string)
    : outcome json :=
  let meta_path := transfers_dir self // transfer_id // "transfer.json" in
  if negb (Fs.exists_ w meta_path) then Ok (JDict [])
  else
    match files w !! meta_path with
    | Some d => json_loads d
    | None => Raise (OSError "IsADirectoryError")
    end.

(** [self._cfg["ppl_to_transfer"].get(pplid)]: a list or dict is not
    hashable, and only string keys can be present. *)
Definition lookup_transfer (pplid : json) : outcome (option json) :=
  match py_item (_cfg self) "ppl_to_transfer" with
  | Raise e => Raise e
  | Ok (JDict items) =>
      match pplid with
      | JStr s => Ok (dict_get s items)
      | JList _ | JDict _ => Raise (TypeError "unhashable type")
      | _ => Ok None
      end
  | Ok _ => Raise (AttributeError "object has no attribute 'get'")
  end.

(** [if not transfer_id] *)
Definition no_transfer (transfer_id : option json) : bool :=
  match transfer_id with
  | Some t => negb (json_truthy t)
  | None => true
  end.

(** [meta.get(key, {})] *)
Definition get_map (meta : json) (key : string) : outcome json :=
  match py_get meta key with
  | Ok v => Ok (from_option id (JDict []) v)
  | Raise e => Raise e
  end.

(** [map_loc] *)
Definition map_loc (w : World) (loc : string) (pplid : json) : outcome json :=
  match lookup_transfer pplid with
  | Raise e => Raise e
  | Ok transfer_id =>
      if no_transfer transfer_id then Ok (JStr loc)
      else
        match as_str (from_option id JNull transfer_id) with
        | Raise e => Raise e
        | Ok tid =>
            match _load_transfer_meta w tid with
            | Raise e => Raise e
            | Ok meta =>
                match get_map meta "loc_map" with
                | Raise e => Raise e
                | Ok (JDict items) =>
                    Ok (from_option id (JStr loc) (dict_get loc items))
                | Ok _ =>
                    Raise (AttributeError "object has no attribute 'get'")
                end
            end
        end
  end.

(** The loop [for src, dst in path_map.items()] of [map_src]: the loop
    variable is named [src] like the argument, so from the first turn on
    [src] is the key of the current item; [dst] is rebound to a [Path]. *)
Fixpoint map_src_loop (payload : path) (src : string)
    (items : list (string * json)) : outcome string :=
  match items with
  | [] => Ok src
  | (key, dst) :: items' =>
      let src := key in
      match as_str dst with
      | Raise e => Raise e
      | Ok dst =>
          let dst := APath (payload // dst) in
          if PyStr.startswith src src then str_replace src src dst
          else map_src_loop payload src items'
      end
  end.

(** [map_src(src, pplid)]; [pplid = None] stands for a call that does not
    pass the second positional argument. *)
Definition map_src (w : World) (src : string) (pplid : option json)
    : outcome string :=
  match pplid with
  | None =>
      Raise (TypeError
        "map_src() missing 1 required positional argument: 'pplid'")
  | Some pplid =>
      let src := as_posix (Path src) in
      match lookup_transfer pplid with
      | Raise e => Raise e
      | Ok transfer_id =>
          if no_transfer transfer_id then Ok src
          else
            match as_str (from_option id JNull transfer_id) with
            | Raise e => Raise e
            | Ok tid =>
                match _load_transfer_meta w tid with
                | Raise e => Raise e
                | Ok meta =>
                    match get_map meta "path_map" with
                    | Raise e => Raise e
                    | Ok (JDict items) =>
                        map_src_loop
                          (transfers_dir self // tid // "payload") src items
                    | Ok _ =>
                        Raise (AttributeError
                                 "object has no attribute 'items'")
                    end
                end
            end
      end
  end.

(** [remap] of [map_cnfg]. The config is the caller's object and is
    rewritten in place: the tree is returned next to the outcome, with the
    rewrites made before an exception. *)
Fixpoint remap (w : World) (pplid : json) (d : json) : outcome unit * json :=
  match d with
  | JDict items =>
      let fix items_loop (items : list (string * json))
          : outcome unit * list (string * json) :=
        match items with
        | [] => (Ok (), [])
        | (k, v) :: rest =>
            let '(o, v') :=
              if PyStr.contains "loc" k && is_str v then
                match v with
                | JStr loc =>
                    match map_loc w loc pplid with
                    | Ok r => (Ok (), r)
                    | Raise e => (Raise e, v)
                    end
                | _ => (Ok (), v)
                end
              else if PyStr.contains "src" k && is_str v then
                match v with
                | JStr src =>
                    match map_src w src None with
                    | Ok r => (Ok (), JStr r)
                    | Raise e => (Raise e, v)
                    end
                | _ => (Ok (), v)
                end
              else remap w pplid v in
            match o with
            | Raise e => (Raise e, (k, v') :: rest)
            | Ok _ =>
                let '(o', rest') := items_loop rest in
                (o', (k, v') :: rest')
            end
        end in
      let '(o, items') := items_loop items in (o, JDict items')
  | JList l =>
      let fix list_loop (l : list json) : outcome unit * list json :=
        match l with
        | [] => (Ok (), [])
        | item :: rest =>
            let '(o, item') := remap w pplid item in
            match o with
            | Raise e => (Raise e, item' :: rest)
            | Ok _ =>
                let '(o', rest') := list_loop rest in (o', item' :: rest')
            end
        end in
      let '(o, l') := list_loop l in (o, JList l')
  | _ => (Ok (), d)
  end.

(** [map_cnfg(cnfg)]: the value returned or the exception raised, and the
    config object as it is afterwards. *)
Definition map_cnfg (w : World) (cnfg : json) : outcome json * json :=
  match py_item cnfg "pplid" with
  | Raise e => (Raise e, cnfg)
  | Ok pplid =>
      let '(o, cnfg') := remap w pplid cnfg in
      match o with
      | Ok _ => (Ok cnfg', cnfg')
      | Raise e => (Raise e, cnfg')
      end
  end.

End Methods.

End Mapper.

(** ** The dependency walk of [plf/_transfer_utils.py] *)

Module Resolver.

(** The [edges] table of the pipeline database: one row per edge, with the
    columns [prev] (nullable) and [next]. *)
Definition Db : Type := list (option string * string).

(** [db.query("SELECT prev FROM edges WHERE next = ? LIMIT 1", (pplid,))]:
    the rows come back as tuples with the single column [prev]; [LIMIT 1]
    keeps the first matching row. *)
Fixpoint query_prev (db : Db) (pplid : string) : list (option string) :=
  match db with
  | [] => []
  | (prev, next) :: db' =>
      if decide (next = pplid) then [prev] else query_prev db' pplid
  end.

(** Python truthiness of a column value: [None] and the empty string are
    false. *)
Definition truthy (v : option string) : bool :=
  match v with
  | Some s => if decide (s = "") then false else true
  | None => false
  end.

(** The test [rows and rows[0][0]] of [collect_deps] together with the
    binding [prev_pplid = rows[0][0]]: the direct predecessor that the walk
    sees for an id. *)
Definition direct_pred (db : Db) (pplid : string) : option string :=
  match query_prev db pplid with
  | v :: _ => if truthy v then v else None
  | [] => None
  end.

(** The state of one call of [get_dependencies]: the set [dependencies]
    closed over by [collect_deps], and the ids handed to [db.query] so far,
    oldest first. *)
Record walk : Type := Walk {
  dependencies : gset string;
  lookups : list string
}.

(** [collect_deps]; the recursion depth is bounded by [fuel], and [None]
    means the bound was hit. *)
Fixpoint collect_deps (fuel : nat) (db : Db) (recursive : bool)
    (pplid : string) (w : walk) : option walk :=
  match fuel with
  | 0 => None
  | S fuel' =>
      let w1 := Walk (dependencies w) (lookups w ++ [pplid]) in
      match direct_pred db pplid with
      | Some prev_pplid =>
          if decide (prev_pplid ∈ dependencies w1) then Some w1
          else
            let w2 := Walk ({[prev_pplid]} ∪ dependencies w1) (lookups w1) in
            if recursive then collect_deps fuel' db recursive prev_pplid w2
            else Some w2
      | None => Some w1
      end
  end.

(** The ids that can ever enter [dependencies]: the non-empty [prev]
    values of the table. *)
Definition prev_ids (db : Db) : gset string :=
  list_to_set (omap (λ row, if truthy row.1 then row.1 else None) db).

(** All ids the table mentions, in either column. *)
Definition db_ids (db : Db) : gset string :=
  prev_ids db ∪ list_to_set (snd <$> db).

(** A recursion depth that is always enough (see [collect_deps_fuel]). *)
Definition depth_bound (db : Db) : nat := S (size (prev_ids db)).

(** [get_dependencies]: a fresh [dependencies] set, one walk, and
    [list(dependencies)]; the lookups made are returned next to it. *)
Definition get_dependencies_walk (db : Db) (pplid : string)
    (recursive : bool) : option walk :=
  collect_deps (depth_bound db) db recursive pplid (Walk ∅ []).

Definition get_dependencies (db : Db) (pplid : string) (recursive : bool)
    : option (list string) :=
  w ← get_dependencies_walk db pplid recursive;
  Some (elements (dependencies w)).

(** [resolve_dependencies]: the loop state is the pair
    [(all_pplids, resolved)]; only [all_pplids] is returned. *)
Definition resolve_step (db : Db) (acc : option (gset string * gset string))
    (pplid : string) : option (gset string * gset string) :=
  '(all_pplids, resolved) ← acc;
  deps ← get_dependencies db pplid true;
  Some (all_pplids ∪ list_to_set deps, resolved ∪ list_to_set deps).

Definition resolve_dependencies (db : Db) (pplids : list string)
    : option (list string) :=
  r ← foldl (resolve_step db)
        (Some (list_to_set pplids, list_to_set pplids)) pplids;
  Some (elements r.1).

(** *** Reachability in the predecessor relation *)

Definition pred_rel (db : Db) (x y : string) : Prop :=
  direct_pred db x = Some y.

(** [y] is a transitive predecessor of [x]. *)
Definition ancestor (db : Db) : relation string := tc (pred_rel db).

Definition acyclic (db : Db) : Prop := ∀ x, ¬ ancestor db x x.

(** [k]-fold predecessor. *)
Fixpoint nth_pred (db : Db) (k : nat) (x : string) : option string :=
  match k with
  | 0 => Some x
  | S k' => direct_pred db x ≫= nth_pred db k'
  end.

(** A decidable sufficient test for acyclicity: from every id of the table
    the chain of predecessors ends within [length db + 1] steps. *)
Definition acyclicb (db : Db) : bool :=
  forallb (λ row, bool_decide (nth_pred db (S (length db)) row.2 = None)) db.

(** [t :: rest] is a dependency chain: each id is followed by its direct
    predecessor and the last one has none. *)
Fixpoint is_chain (db : Db) (t : string) (rest : list string) : bool :=
  match rest with
  | [] => bool_decide (direct_pred db t = None)
  | p :: rest' => bool_decide (direct_pred db t = Some p) && is_chain db p rest'
  end.

End Resolver.

(** Two stores used below: the chain [p0 → p1 → p2] and the cycle [a ↔ b]. *)
Definition chain3 : Resolver.Db := [(Some "p1", "p2"); (Some "p0", "p1")].
Definition cyc2 : Resolver.Db := [(Some "b", "a"); (Some "a", "b")].

(** ** Predicates on computations and worlds *)

(** [m] keeps the invariant [I], whatever its outcome. *)
Definition preserves (I : World → Prop) {X : Type} (m : M X) : Prop :=
  ∀ w, I w → I (m w).2.

(** An invariant that only reads the regular files. *)
Definition on_files (I : World → Prop) : Prop :=
  ∀ w w', files w' = files w → I w → I w'.

(** Invariants that survive appending a member to the archive at [zp]. *)
Definition append_stable (zp : path) (I : World → Prop) : Prop :=
  on_files I ∧ ∀ m, preserves I (Zipfile.append zp m).

(** The archive being written is there. *)
Definition zip_at (zp : path) (w : World) : Prop :=
  ∃ ms, files w !! zp = Some (Zip ms).

(** The archive at [zp] starts with the member [m0]. *)
Definition zip_starts_with (zp : path) (m0 : member) (w : World) : Prop :=
  ∃ ms, files w !! zp = Some (Zip (m0 :: ms)).

(** The file [q] has the contents [v], or is absent. *)
Definition file_is (q : path) (v : option fdata) (w : World) : Prop :=
  files w !! q = v.

Definition files_are (F : gmap path fdata) (w : World) : Prop := files w = F.

(** [m] raises and leaves the regular files as [F]. *)
Definition fails_clean {X : Type} (F : gmap path fdata) (m : M X) (w : World)
    : Prop :=
  ∃ e w', m w = (Raise e, w') ∧ files w' = F.

(** Where a base export of the lab of [w] to [clone_id] puts its
    archive, and where a results export does. *)
Definition base_zip_path_of (clock : Clock) (w : World) (clone_id : string)
    : path :=
  PyPath.resolve (PyPath.Path (data_path (settings w))) // "Clones"
  // clone_id // "transfers"
  // (Transfer.mint_transfer_id clock "t_" +:+ ".zip").

Definition results_zip_path_of (clock : Clock) (w : World) : path :=
  PyPath.Path (data_path (settings w)) // "TransfersOut"
  // (Transfer.mint_transfer_id clock "r_" +:+ ".zip").

(** An invariant that no change of the directories breaks, and that
    survives writing or deleting any regular file whose path satisfies
    [P]. *)
Definition guarded (P : path → Prop) (I : World → Prop) : Prop :=
  (∀ w f, I w → I (set_dirs f w)) ∧
  (∀ w p d, P p → I w → I (set_files (λ fs, <[p := d]> fs) w)) ∧
  (∀ w p, P p → I w → I (set_files (λ fs, delete p fs) w)).

(** The settings and the attached transfer context are [st] and [c]. *)
Definition session_is (st : Settings) (c : option RuntimeContext)
    (w : World) : Prop :=
  settings w = st ∧ transfer_context w = c.

(** [m] never returns normally. *)
Definition never_returns {X : Type} (m : M X) : Prop :=
  ∀ w, raised (m w).1 = true.

(** Whenever [m] returns normally, the value returned satisfies [Q]. *)
Definition returns_only {X : Type} (Q : X → Prop) (m : M X) : Prop :=
  ∀ w, match (m w).1 with Ok v => Q v | Raise _ => True end.


(** The registry file [clone.json] of a clone of the lab of [w]. *)
Definition clone_json_of (w : World) (clone_id : string) : path :=
  PyPath.resolve (PyPath.Path (data_path (settings w))) // "Clones"
  // clone_id // "clone.json".

(** Two lists of the same length, related item by item. *)
Fixpoint all2 {A B : Type} (R : A → B → Prop) (xs : list A) (ys : list B)
    : Prop :=
  match xs, ys with
  | [], [] => True
  | x :: xs', y :: ys' => R x y ∧ all2 R xs' ys'
  | _, _ => False
  end.

(** Two configs that differ at most in the string values stored under
    keys containing [loc]: same keys in the same order, lists of the same
    length, every other value the same. *)
Fixpoint only_locs_differ (a b : json) {struct a} : Prop :=
  match a, b with
  | JDict xs, JDict ys =>
      all2 (λ x y,
              match x, y with
              | (k, v), (k', v') =>
                  k = k' ∧
                  if PyStr.contains "loc" k && PyObj.is_str v then True
                  else only_locs_differ v v'
              end) xs ys
  | JList xs, JList ys => all2 only_locs_differ xs ys
  | JDict _, _ | JList _, _ => False
  | _, _ => a = b
  end.

(** ** Scenarios

    A small lab used to run the operations on concrete inputs: pipeline
    [p1] with a config file and one result file, a registered clone [c1],
    and an id [bad] that fails verification. *)

Module Scenario.
Import PyPath.

Definition api0 : PipeLineAPI := {|
  pl_verify := λ _ pplid, bool_decide (pplid ≠ "bad");
  pl_load := λ _ _, Ok ();
  pl_paths := λ _ _, ["config"; "out"];
  pl_get_path := λ _ pplid art,
    Ok (if decide (art = "config") then "/lab/" +:+ pplid +:+ "/config.json"
        else "/lab/" +:+ pplid +:+ "/" +:+ art)
|}.

Definition clk : Clock := {|
  now_stamp := "20240101_000000";
  now_iso := "2024-01-01T00:00:00";
  uuid_hex := "abcdef0123456789"
|}.

Definition lab_files : list (path * fdata) :=
  [(Path "/lab/p1/config.json", Text "cfg1");
   (Path "/lab/p1/out/r.txt", Text "r1")].

Definition lab_dirs : list path :=
  [Path "/lab"; Path "/lab/p1"; Path "/lab/p1/out"].

Definition base_world : World := {|
  files := list_to_map
    ((Path "/lab/Clones/c1/clone.json",
      Doc (JDict [("clone_id", JStr "c1")])) :: lab_files);
  dirs := list_to_set
    (Path "/lab/Clones" :: Path "/lab/Clones/c1" :: lab_dirs);
  settings := {| data_path := "/lab"; lab_id := Some "L0";
                 lab_role := Some "base" |};
  transfer_context := None
|}.

Definition remote_world : World := {|
  files := list_to_map lab_files;
  dirs := list_to_set lab_dirs;
  settings := {| data_path := "/lab"; lab_id := Some "R1";
                 lab_role := Some "remote" |};
  transfer_context := None
|}.

Definition inbox : path := Path "/in/t.zip".

Definition run_meta : json :=
  JDict [("direction", JStr "base_to_remote"); ("transfer_id", JStr "t1")].

(** An archive with a member that climbs out of the extraction root. *)
Definition evil_archive : list member :=
  [("a.txt", Text "a"); ("../../etc/passwd", Text "x");
   ("transfer.json", Doc run_meta)].

Definition plain_archive : list member :=
  [("p9/a.txt", Text "a"); ("transfer.json", Doc run_meta)].

Definition with_inbox (ms : list member) (w : World) : World :=
  set_files (λ fs, <[inbox := Zip ms]> fs) w.

(** Where the base export of the scenario puts its archive. *)
Definition base_zip : path :=
  Path "/lab/Clones/c1/transfers/t_20240101_000000_abcdef.zip".

(** Where the results export of the scenario puts its archive. *)
Definition remote_zip : path :=
  Path "/lab/TransfersOut/r_20240101_000000_abcdef.zip".

(** A base lab whose [Clones] directory exists and holds no clone. *)
Definition empty_registry : World := {|
  files := list_to_map lab_files;
  dirs := list_to_set (Path "/lab/Clones" :: lab_dirs);
  settings := {| data_path := "/lab"; lab_id := Some "L0";
                 lab_role := Some "base" |};
  transfer_context := None
|}.

(** A remote lab that received pipeline [p1] with transfer [t1]. *)
Definition lineage : Mapper.TransferContext := {|
  Mapper.transfers_dir := Path "/lab/Transfers";
  Mapper._cfg := JDict [("active_transfer_id", JStr "t1");
                        ("history", JList [JStr "t1"]);
                        ("ppl_to_transfer", JDict [("p1", JStr "t1")])]
|}.

Definition t1_meta : json :=
  JDict [("transfer_id", JStr "t1");
         ("path_map", JDict [("/data", JStr "d")]);
         ("loc_map", JDict [("A", JStr "B")])].

Definition mapped_world : World :=
  set_dirs (λ ds, {[Path "/lab/Transfers"; Path "/lab/Transfers/t1"]} ∪ ds)
    (set_files (λ fs, <[Path "/lab/Transfers/t1/transfer.json" := Doc t1_meta]> fs)
       remote_world).

Definition p1_config : json :=
  JDict [("pplid", JStr "p1"); ("loc", JStr "A"); ("src", JStr "/data/x")].

(** A base lab that has never registered a clone: no [Clones] directory. *)
Definition fresh_base : World := {|
  files := list_to_map lab_files;
  dirs := list_to_set lab_dirs;
  settings := {| data_path := "/lab"; lab_id := Some "L0";
                 lab_role := Some "base" |};
  transfer_context := None
|}.

(** A lab whose settings carry a role that is neither base nor remote. *)
Definition staging_world : World := {|
  files := list_to_map lab_files;
  dirs := list_to_set lab_dirs;
  settings := {| data_path := "/lab"; lab_id := Some "S0";
                 lab_role := Some "staging" |};
  transfer_context := None
|}.

Definition results_meta0 : json :=
  JDict [("direction", JStr "remote_to_base"); ("transfer_id", JStr "r1")].

(** A results archive, as a remote lab sends it back. *)
Definition results_archive : list member :=
  [("transfer.json", Doc results_meta0);
   ("Results/p1/out/r.txt", Text "r1")].

(** A runtime context with two path prefixes. *)
Definition two_prefixes : RuntimeContext := {|
  rc_path_map := [("/other", "/o"); ("/data", "/mnt/d")];
  rc_component_map := [("A", JStr "B")];
  rc_transfer_id := Some "t1"
|}.

End Scenario.

(** * Properties *)

(** ** The path and string model on small inputs *)

Example Path_parts :
  PyPath.Path "/lab//p1/./out/" = ["/"; "lab"; "p1"; "out"] ∧
  PyPath.Path "../../etc/passwd" = [".."; ".."; "etc"; "passwd"] ∧
  PyPath.Path "//srv/x" = ["//"; "srv"; "x"] ∧
  PyPath.Path "" = [].
Proof. by vm_compute. Qed.

Example as_posix_normalises :
  PyPath.as_posix (PyPath.Path "a//b/./c/") = "a/b/c" ∧
  PyPath.as_posix (PyPath.Path "/x/y") = "/x/y" ∧
  PyPath.as_posix (PyPath.Path "") = ".".
Proof. by vm_compute. Qed.

Example joinpath_absolute :
  PyPath.Path "/lab" // "Clones" // "c1" = ["/"; "lab"; "Clones"; "c1"] ∧
  PyPath.Path "/lab" // "/etc" = ["/"; "etc"].
Proof. by vm_compute. Qed.

Example unsafe_names :
  Transfer.unsafe_name "../../etc/passwd" = true ∧
  Transfer.unsafe_name "/etc/passwd" = true ∧
  Transfer.unsafe_name "a/../b" = true ∧
  Transfer.unsafe_name "p1/out/r.txt" = false ∧
  Transfer.unsafe_name "a/..b/c" = false.
Proof. by vm_compute. Qed.

Example str_methods :
  PyStr.replace_first "/data/x/data" "/data" "/mnt" = "/mnt/x/data" ∧
  PyStr.contains "loc" "alloc_src" = true ∧
  PyStr.contains "src" "source" = false ∧
  PyStr.split_on PyPath.slash "a//b" = ["a"; ""; "b"].
Proof. by vm_compute. Qed.

(** ** The dependency walk *)

Section ResolverFacts.
Import Resolver.
Implicit Types (db : Db) (fuel : nat) (x y z s p : string) (w : walk).

Lemma pred_rel_functional db x y z : pred_rel db x y → pred_rel db x z → y = z.
Proof. unfold pred_rel. congruence. Qed.

Lemma direct_pred_prev_ids db x p : direct_pred db x = Some p → p ∈ prev_ids db.
Proof.
  unfold direct_pred, prev_ids. induction db as [|[prev next] db' IH]; simpl.
  - discriminate.
  - destruct (decide (next = x)) as [->|Hne].
    + destruct (truthy prev) eqn:Ht; [|discriminate].
      intros ->. simpl. set_solver.
    + intros Hp. specialize (IH Hp).
      destruct (truthy prev); [destruct prev|]; simpl; set_solver.
Qed.

Lemma direct_pred_next db x p : direct_pred db x = Some p → x ∈ (snd <$> db).
Proof.
  unfold direct_pred. induction db as [|[prev next] db' IH]; simpl.
  - discriminate.
  - destruct (decide (next = x)) as [->|Hne]; [set_solver|].
    intros Hp. specialize (IH Hp). set_solver.
Qed.

Lemma size_difference_fresh (X D : gset string) p :
  p ∈ X → p ∉ D → size (X ∖ D) = S (size (X ∖ ({[p]} ∪ D))).
Proof.
  intros HX HD.
  assert (X ∖ D = {[p]} ∪ X ∖ ({[p]} ∪ D)) as ->.
  { apply set_eq. intros y. destruct (decide (y = p)); set_solver. }
  rewrite size_union by set_solver. by rewrite size_singleton.
Qed.

(** Enough recursion depth: one more than the ids that can still be added. *)
Lemma collect_deps_fuel db recursive fuel x w :
  size (prev_ids db ∖ dependencies w) < fuel →
  is_Some (collect_deps fuel db recursive x w).
Proof.
  revert x w. induction fuel as [|fuel IH]; intros x w Hsz; [lia|].
  simpl. destruct (direct_pred db x) as [p|] eqn:Hp; [|eauto].
  destruct (decide (p ∈ dependencies w)); [eauto|].
  destruct recursive; [|eauto].
  apply IH. simpl.
  rewrite (size_difference_fresh _ _ p) in Hsz;
    eauto using direct_pred_prev_ids with lia.
Qed.

(** More depth does not change a result. *)
Lemma collect_deps_more_fuel db recursive (fuel fuel' : nat) x w w' :
  collect_deps fuel db recursive x w = Some w' → fuel ≤ fuel' →
  collect_deps fuel' db recursive x w = Some w'.
Proof.
  revert fuel' x w. induction fuel as [|fuel IH]; intros fuel' x w; [done|].
  destruct fuel' as [|fuel']; [lia|]. simpl.
  destruct (direct_pred db x) as [p|]; [|done].
  destruct (decide (p ∈ dependencies w)); [done|].
  destruct recursive; [|done].
  intros H ?. apply IH; [done|lia].
Qed.

(** What one walk looks up: the start id, then every id it adds, each once. *)
Lemma collect_deps_lookups db recursive fuel x w w' :
  collect_deps fuel db recursive x w = Some w' →
  ∃ added,
    lookups w' = lookups w ++ x :: added ∧
    NoDup added ∧
    (∀ y, y ∈ added → (y ∉ dependencies w) ∧ (y ∈ prev_ids db)) ∧
    (∀ y, y ∈ added → y ∈ dependencies w') ∧
    (recursive = true → dependencies w' = list_to_set added ∪ dependencies w).
Proof.
  revert x w. induction fuel as [|fuel IH]; intros x w; [done|]. simpl.
  destruct (direct_pred db x) as [p|] eqn:Hp.
  - destruct (decide (p ∈ dependencies w)) as [Hin|Hnin].
    + intros [= <-]. exists []. simpl. split_and!; [done|constructor|set_solver..].
    + destruct recursive.
      * intros (added & Hl & Hnd & Hfresh & Hin & Hdeps)%IH. simpl in *.
        exists (p :: added). split_and!.
        -- rewrite Hl, <-app_assoc. done.
        -- constructor; [|done]. intros Hp'. apply Hfresh in Hp'. set_solver.
        -- intros y [->|Hy]%elem_of_cons.
           ++ eauto using direct_pred_prev_ids.
           ++ apply Hfresh in Hy. set_solver.
        -- intros y [->|Hy]%elem_of_cons; [|by apply Hin].
           rewrite Hdeps by done. set_solver.
        -- intros _. rewrite Hdeps by done. set_solver.
      * intros [= <-]. exists []. simpl. split_and!; [done|constructor|set_solver..].
  - intros [= <-]. exists []. simpl. split_and!; [done|constructor|set_solver..].
Qed.

(** The invariant of a recursive walk started at [s]: everything collected
    is an ancestor of [s], and the collected set together with [s] is closed
    under the predecessor lookup except at the id being expanded. *)
Lemma collect_deps_closure db s fuel x w w' :
  collect_deps fuel db true x w = Some w' →
  (x = s ∨ x ∈ dependencies w) →
  (∀ y, y ∈ dependencies w → ancestor db s y) →
  (∀ y z, y = s ∨ y ∈ dependencies w → pred_rel db y z →
          z ∈ dependencies w ∨ y = x) →
  (∀ y, y ∈ dependencies w' → ancestor db s y) ∧
  (∀ y z, y = s ∨ y ∈ dependencies w' → pred_rel db y z →
          z ∈ dependencies w').
Proof.
  revert x w. induction fuel as [|fuel IH]; intros x w; [done|]. simpl.
  destruct (direct_pred db x) as [p|] eqn:Hp.
  - destruct (decide (p ∈ dependencies w)) as [Hin|Hnin].
    + intros [= <-] Hx Hsound Hclosed. simpl. split; [done|].
      intros y z Hy Hyz. destruct (Hclosed y z Hy Hyz) as [?| ->]; [done|].
      by rewrite (pred_rel_functional db x z p Hyz Hp).
    + intros Hrec Hx Hsound Hclosed.
      assert (ancestor db s p) as Hsp.
      { destruct Hx as [->|Hx]; [by apply tc_once|].
        eapply tc_r; [by apply Hsound|done]. }
      apply IH in Hrec; [done|simpl; set_solver|simpl..].
      * intros y [Hy|Hy]%elem_of_union; [|by auto].
        apply elem_of_singleton in Hy as ->. done.
      * intros y z Hy Hyz. destruct (decide (y = p)) as [|Hne]; [by right|].
        left. assert (y = s ∨ y ∈ dependencies w) as Hy' by set_solver.
        destruct (Hclosed y z Hy' Hyz) as [?| ->]; [set_solver|].
        rewrite (pred_rel_functional db x z p Hyz Hp). set_solver.
  - intros [= <-] Hx Hsound Hclosed. simpl. split; [done|].
    intros y z Hy Hyz. destruct (Hclosed y z Hy Hyz) as [?| ->]; [done|].
    unfold pred_rel in Hyz. congruence.
Qed.

Lemma closed_contains_ancestors db (D : gset string) s :
  (∀ y z, y = s ∨ y ∈ D → pred_rel db y z → z ∈ D) →
  ∀ y, ancestor db s y → y ∈ D.
Proof.
  intros Hclosed y Hanc.
  cut (∀ a, tc (pred_rel db) a y → a = s ∨ a ∈ D → y ∈ D); [by eauto|].
  clear Hanc. intros a Hay. induction Hay as [a y Hay|a b y Hab Hby IH]; eauto.
Qed.

Lemma get_dependencies_walk_total db pplid recursive :
  is_Some (get_dependencies_walk db pplid recursive).
Proof.
  apply collect_deps_fuel. unfold depth_bound. simpl.
  apply Nat.lt_succ_r, subseteq_size. set_solver.
Qed.

(** [get_dependencies] with [recursive=True] returns the ancestors. *)
Lemma get_dependencies_ancestors db s :
  ∃ deps, get_dependencies db s true = Some deps ∧ NoDup deps ∧
          ∀ y, y ∈ deps ↔ ancestor db s y.
Proof.
  unfold get_dependencies.
  destruct (get_dependencies_walk_total db s true) as [w Hw]. rewrite Hw. simpl.
  eexists; split; [done|]. split; [apply NoDup_elements|].
  apply (collect_deps_closure db s) in Hw as [Hsound Hclosed]; simpl.
  - intros y. rewrite elem_of_elements. split; [apply Hsound|].
    by apply closed_contains_ancestors.
  - by left.
  - set_solver.
  - intros y z [->|Hy]; [by right|set_solver].
Qed.

Lemma resolve_fold db pplids (A R : gset string) :
  ∃ A' R', foldl (resolve_step db) (Some (A, R)) pplids = Some (A', R') ∧
    ∀ x, x ∈ A' ↔ x ∈ A ∨ ∃ p, p ∈ pplids ∧ ancestor db p x.
Proof.
  revert A R. induction pplids as [|p pplids IH]; intros A R; simpl.
  - exists A, R. split; [done|]. set_solver.
  - destruct (get_dependencies_ancestors db p) as (deps & -> & _ & Hdeps). simpl.
    destruct (IH (A ∪ list_to_set deps) (R ∪ list_to_set deps))
      as (A' & R' & -> & HA').
    exists A', R'. split; [done|]. intros x. rewrite HA'.
    rewrite elem_of_union, elem_of_list_to_set, Hdeps. split.
    + intros [[?|?]|(q & ? & ?)]; [by left|right; exists p|right; exists q];
        set_solver.
    + intros [?|(q & [->|?]%elem_of_cons & ?)]; [by auto|by auto|].
      right. by exists q.
Qed.

(** [resolve_dependencies] returns the inputs and all their ancestors. *)
Lemma resolve_dependencies_spec db pplids :
  ∃ out, resolve_dependencies db pplids = Some out ∧ NoDup out ∧
    ∀ x, x ∈ out ↔ x ∈ pplids ∨ ∃ p, p ∈ pplids ∧ ancestor db p x.
Proof.
  unfold resolve_dependencies.
  destruct (resolve_fold db pplids (list_to_set pplids) (list_to_set pplids))
    as (A' & R' & -> & HA'). simpl.
  eexists; split; [done|]. split; [apply NoDup_elements|].
  intros x. rewrite elem_of_elements, HA', elem_of_list_to_set. done.
Qed.

Lemma nth_pred_add db (a b : nat) x :
  nth_pred db (a + b) x = nth_pred db a x ≫= nth_pred db b.
Proof.
  revert x. induction a as [|a IH]; intros x; simpl; [done|].
  destruct (direct_pred db x); simpl; [apply IH|done].
Qed.

Lemma ancestor_nth_pred db x y :
  ancestor db x y → ∃ k, nth_pred db (S k) x = Some y.
Proof.
  induction 1 as [x y Hxy|x b y Hxb _ [k IH]].
  - exists 0. simpl. by rewrite Hxy.
  - exists (S k). change (nth_pred db (S (S k)) x)
      with (direct_pred db x ≫= nth_pred db (S k)). by rewrite Hxb.
Qed.

Lemma nth_pred_loop db (k n : nat) x :
  nth_pred db k x = Some x → nth_pred db (n * k) x = Some x.
Proof.
  intros Hk. induction n as [|n IH]; simpl; [done|].
  by rewrite nth_pred_add, Hk.
Qed.

Lemma nth_pred_None_more db (k j : nat) x :
  nth_pred db k x = None → nth_pred db (k + j) x = None.
Proof. intros Hk. by rewrite nth_pred_add, Hk. Qed.

Lemma ancestor_next db x y : ancestor db x y → x ∈ (snd <$> db).
Proof.
  destruct 1 as [x y H|x y z H _]; unfold pred_rel in H;
    eauto using direct_pred_next.
Qed.

(** The boolean test is sound. *)
Lemma acyclicb_sound db : acyclicb db = true → acyclic db.
Proof.
  unfold acyclicb. rewrite forallb_forall. intros Hall x Hxx.
  assert (nth_pred db (S (length db)) x = None) as Hend.
  { pose proof (ancestor_next _ _ _ Hxx) as Hx.
    apply list_elem_of_fmap in Hx as ([prev next] & -> & Hin).
    by apply list_elem_of_In, Hall, bool_decide_eq_true in Hin. }
  apply ancestor_nth_pred in Hxx as [k Hk].
  apply (nth_pred_loop _ _ (S (length db))) in Hk.
  apply (nth_pred_None_more _ _ (S (length db) * S k - S (length db))) in Hend.
  replace (S (length db) + (S (length db) * S k - S (length db)))
    with (S (length db) * S k) in Hend by lia.
  congruence.
Qed.

(** On a chain, the ancestors of the first id are the rest of the chain. *)
Lemma is_chain_ancestors db t rest :
  is_chain db t rest = true → ∀ y, ancestor db t y ↔ y ∈ rest.
Proof.
  revert t. induction rest as [|p rest IH]; intros t; simpl.
  - intros Ht%bool_decide_eq_true y. split; [|by intros ?%elem_of_nil].
    intros Hty. exfalso.
    destruct Hty as [? ? H|? ? ? H _]; unfold pred_rel in H; congruence.
  - intros [Ht%bool_decide_eq_true Hrest]%andb_true_iff y.
    rewrite elem_of_cons, <-(IH p Hrest). split.
    + intros Hty. destruct Hty as [t y H|t b y H Hby].
      * left. unfold pred_rel in H. congruence.
      * right. unfold pred_rel in H. by replace p with b by congruence.
    + intros [->|Hpy]; [by apply tc_once|]. by eapply tc_l.
Qed.

Lemma is_chain_NoDup db t rest :
  acyclic db → is_chain db t rest = true → NoDup (t :: rest).
Proof.
  intros Hacyc. revert t. induction rest as [|p rest IH]; intros t Hchain.
  - apply NoDup_singleton.
  - apply NoDup_cons. split.
    + intros Hin. apply (is_chain_ancestors _ _ _ Hchain) in Hin.
      by apply (Hacyc t).
    + simpl in Hchain. apply andb_true_iff in Hchain as [_ Hrest]. by apply IH.
Qed.

(** C3: over an acyclic predecessor relation, [resolve_dependencies]
    returns exactly the input ids together with every transitive
    predecessor of an input id. In particular, on a dependency chain
    [t :: rest] of [n] ids, [get_dependencies] of the tail id [t] is the
    [n-1] ancestors [rest], and resolving [[t]] yields them next to [t]
    itself. *)
Theorem resolve_dependencies_closure db pplids t rest :
  acyclic db →
  is_chain db t rest = true →
  (∃ out, resolve_dependencies db pplids = Some out ∧ NoDup out ∧
     ∀ x, x ∈ out ↔ x ∈ pplids ∨ ∃ p, p ∈ pplids ∧ ancestor db p x) ∧
  (∃ deps out,
     get_dependencies db t true = Some deps ∧ deps ≡ₚ rest ∧
     resolve_dependencies db [t] = Some out ∧ out ≡ₚ t :: rest).
Proof.
  intros Hacyc Hchain. split; [apply resolve_dependencies_spec|].
  pose proof (is_chain_NoDup _ _ _ Hacyc Hchain) as Hnd.
  pose proof (is_chain_ancestors _ _ _ Hchain) as Hanc.
  destruct (get_dependencies_ancestors db t) as (deps & Hdeps & Hnd1 & Hin1).
  destruct (resolve_dependencies_spec db [t]) as (out & Hout & Hnd2 & Hin2).
  exists deps, out. split_and!; [done| |done|].
  - apply NoDup_Permutation; [done|by eapply NoDup_cons_1_2|].
    intros y. by rewrite Hin1, Hanc.
  - apply NoDup_Permutation; [done..|].
    intros y. rewrite Hin2, (elem_of_cons rest). split.
    + intros [Hy|(q & Hq & Hqy)].
      * left. by apply list_elem_of_singleton in Hy.
      * right. apply list_elem_of_singleton in Hq as ->. by apply Hanc.
    + intros [->|Hy]; [left; by apply list_elem_of_singleton|].
      right. exists t. split; [by apply list_elem_of_singleton|by apply Hanc].
Qed.

(** The chain [p0 → p1 → p2], resolved from its tail. *)
Lemma resolve_dependencies_closure_witness :
  acyclic chain3 ∧ is_chain chain3 "p2" ["p1"; "p0"] = true ∧
  (∃ out, resolve_dependencies chain3 ["p2"; "p1"] = Some out ∧ NoDup out ∧
     ∀ x, x ∈ out ↔
       x ∈ ["p2"; "p1"] ∨ ∃ p, p ∈ ["p2"; "p1"] ∧ ancestor chain3 p x) ∧
  (∃ deps out,
     get_dependencies chain3 "p2" true = Some deps ∧ deps ≡ₚ ["p1"; "p0"] ∧
     resolve_dependencies chain3 ["p2"] = Some out ∧
     out ≡ₚ ["p2"; "p1"; "p0"]).
Proof.
  assert (acyclic chain3) as Hacyc by (apply acyclicb_sound; reflexivity).
  split; [exact Hacyc|]. split; [reflexivity|].
  apply (resolve_dependencies_closure chain3 ["p2"; "p1"] "p2" ["p1"; "p0"]);
    [exact Hacyc|reflexivity].
Defined.

(** C8 (as the code has it): the walk of [get_dependencies] returns on
    every store, cyclic or not. It looks up the start id and then each id
    it adds to [dependencies], every one of them once, so the number of
    lookups is at most one more than the number of distinct predecessor
    ids of the store. *)
Theorem get_dependencies_terminates db pplid recursive :
  ∃ w, get_dependencies_walk db pplid recursive = Some w ∧
    (∀ fuel, depth_bound db ≤ fuel →
       collect_deps fuel db recursive pplid (Walk ∅ []) = Some w) ∧
    ∃ added,
      lookups w = pplid :: added ∧ NoDup added ∧
      (∀ y, y ∈ added → y ∈ dependencies w) ∧
      (recursive = true → dependencies w = list_to_set added) ∧
      length (lookups w) ≤ 1 + size (prev_ids db) ∧
      length (lookups w) ≤ 1 + size (db_ids db).
Proof.
  destruct (get_dependencies_walk_total db pplid recursive) as [w Hw].
  exists w. split; [done|]. split.
  { intros fuel Hfuel. by eapply collect_deps_more_fuel. }
  apply collect_deps_lookups in Hw
    as (added & Hl & Hnd & Hfresh & Hin & Hdeps). simpl in *.
  exists added. split_and!; [done..| | |].
  - intros Hr. rewrite Hdeps by done. set_solver.
  - rewrite Hl. simpl. apply le_n_S.
    rewrite <-(size_list_to_set (C:=gset string)) by done.
    apply subseteq_size. intros y Hy%elem_of_list_to_set. by apply Hfresh.
  - rewrite Hl. simpl. apply le_n_S.
    rewrite <-(size_list_to_set (C:=gset string)) by done.
    apply subseteq_size. intros y Hy%elem_of_list_to_set.
    apply elem_of_union_l. by apply Hfresh.
Qed.

(** C8, counterexample to the bound by the number of distinct ids: on the
    two-cycle [a ↔ b] the start id is looked up a second time, three
    lookups for two distinct ids. *)
Lemma get_dependencies_revisits_start :
  ∃ w, get_dependencies_walk cyc2 "a" true = Some w ∧
    lookups w = ["a"; "b"; "a"] ∧
    ¬ NoDup (lookups w) ∧
    ¬ (length (lookups w) ≤ size (db_ids cyc2 ∪ {["a"]})).
Proof.
  eexists. split; [reflexivity|]. simpl. split; [done|]. split.
  - intros [Hnin _]%NoDup_cons. apply Hnin. set_solver.
  - vm_compute. lia.
Qed.

End ResolverFacts.

(** ** Reasoning about computations *)

Section MonadFacts.
Context {A B : Type}.
Implicit Types (w : World) (I : World → Prop).

Lemma preserves_ret I (a : A) : preserves I (ret a).
Proof. by intros w. Qed.

Lemma preserves_raise I e : preserves I (raise (A:=A) e).
Proof. by intros w. Qed.

Lemma preserves_lift I (o : outcome A) : preserves I (lift o).
Proof. by intros w. Qed.

Lemma preserves_get_world I : preserves I get_world.
Proof. by intros w. Qed.

Lemma preserves_bind I (m : M A) (k : A → M B) :
  preserves I m → (∀ a, preserves I (k a)) → preserves I (bind m k).
Proof.
  intros Hm Hk w Hw. unfold bind. specialize (Hm w Hw).
  destruct (m w) as [[a|e] w']; simpl in *; [by apply Hk|done].
Qed.

Lemma preserves_try_except I (m : M A) (h : exn → M A) :
  preserves I m → (∀ e, preserves I (h e)) → preserves I (try_except m h).
Proof.
  intros Hm Hh w Hw. unfold try_except. specialize (Hm w Hw).
  destruct (m w) as [[a|e] w']; simpl in *; [done|by apply Hh].
Qed.

Lemma bind_raise (m : M A) (k : A → M B) w e w' :
  m w = (Raise e, w') → bind m k w = (Raise e, w').
Proof. unfold bind. by intros ->. Qed.

Lemma bind_ok (m : M A) (k : A → M B) w a w' :
  m w = (Ok a, w') → bind m k w = k a w'.
Proof. unfold bind. by intros ->. Qed.

End MonadFacts.

Lemma preserves_for_each {X} (I : World → Prop) (l : list X) body :
  (∀ x, preserves I (body x)) → preserves I (for_each l body).
Proof.
  intros Hbody. induction l as [|x l IH]; simpl.
  - apply preserves_ret.
  - apply preserves_bind; [apply Hbody|by intros _].
Qed.

Lemma preserves_ask {X} (I : World → Prop) (f : World → outcome X) :
  preserves I (Transfer.ask f).
Proof. by intros w. Qed.

(** A loop raises as soon as one of its turns always does. *)
Lemma for_each_raises {X} (l : list X) body x :
  x ∈ l → (∀ w, raised (body x w).1 = true) →
  ∀ w, raised (for_each l body w).1 = true.
Proof.
  intros Hin Hx. induction l as [|y l IH]; intros w.
  - by apply elem_of_nil in Hin.
  - simpl. unfold bind. destruct (body y w) as [[[]|e] w'] eqn:Hy; [|done].
    apply elem_of_cons in Hin as [->|Hin]; [|by apply IH].
    specialize (Hx w). by rewrite Hy in Hx.
Qed.

Lemma raised_true {X} (r : outcome X * World) :
  raised r.1 = true → ∃ e w', r = (Raise e, w').
Proof. destruct r as [[a|e] w']; [done|by eauto]. Qed.

Lemma mkdir_rec_files n parents exist_ok p w :
  files (Fs.mkdir_rec n parents exist_ok p w).2 = files w.
Proof.
  revert parents exist_ok p w.
  induction n as [|n IH]; intros parents exist_ok p w; simpl;
    unfold bind, get_world; simpl;
    repeat (match goal with |- context [if ?b then _ else _] =>
              destruct b end; try done).
  destruct (Fs.mkdir_rec n true true (PyPath.parent p) w) as [[[]|e] w'] eqn:H1;
    pose proof (IH true true (PyPath.parent p) w) as H2;
    rewrite H1 in H2; simpl in *; [|done].
  by rewrite IH.
Qed.

Lemma preserves_mkdir I parents exist_ok p :
  on_files I → preserves I (Fs.mkdir parents exist_ok p).
Proof. intros HI w Hw. eapply HI; [apply mkdir_rec_files|done]. Qed.

Lemma preserves_read_file I p : preserves I (Fs.read_file p).
Proof.
  intros w Hw. unfold Fs.read_file, bind, get_world. by destruct (files w !! p).
Qed.

Ltac preserves_step :=
  lazymatch goal with
  | |- preserves _ (bind _ _) => apply preserves_bind; [|intros ?]
  | |- preserves _ (ret _) => apply preserves_ret
  | |- preserves _ (raise _) => apply preserves_raise
  | |- preserves _ (lift _) => apply preserves_lift
  | |- preserves _ get_world => apply preserves_get_world
  | |- preserves _ (Transfer.ask _) => apply preserves_ask
  | |- preserves _ (for_each _ _) => apply preserves_for_each; intros ?
  | |- preserves _ (try_except _ _) => apply preserves_try_except; [|intros ?]
  | |- preserves _ (Fs.read_file _) => apply preserves_read_file
  | |- preserves _ (if ?b then _ else _) => destruct b
  end.

(** ** Base export: what the archive block may write *)

Section ExportFacts.
Import PyPath Transfer.
Context (api : PipeLineAPI) (clock : Clock).
Implicit Types (w : World) (zp : path).

Lemma zip_at_stable zp : append_stable zp (zip_at zp).
Proof.
  split.
  - intros w w' Hf [ms Hms]. exists ms. by rewrite Hf.
  - intros m w [ms Hms]. unfold zip_at, Zipfile.append, modify. simpl.
    rewrite Hms. eexists. apply lookup_insert_eq.
Qed.

Lemma file_is_stable zp q v : q ≠ zp → append_stable zp (file_is q v).
Proof.
  intros Hne. split.
  - intros w w' Hf Hq. unfold file_is. by rewrite Hf.
  - intros m w Hq. unfold file_is, Zipfile.append, modify. simpl.
    destruct (files w !! zp) as [[]|]; try done. by rewrite lookup_insert_ne.
Qed.

Lemma preserves_zip_write zp I src arc :
  append_stable zp I → preserves I (Zipfile.write zp src arc).
Proof.
  intros [_ Happ]. unfold Zipfile.write. repeat preserves_step; apply Happ.
Qed.

Lemma preserves_stage_artifact zp I lab_base pplid art :
  append_stable zp I → preserves I (stage_artifact api lab_base zp pplid art).
Proof.
  intros HI. unfold stage_artifact.
  repeat preserves_step; by apply preserves_zip_write.
Qed.

Lemma preserves_stage_pipeline zp I lab_base pplid :
  append_stable zp I → preserves I (stage_pipeline api lab_base zp pplid).
Proof.
  intros HI. unfold stage_pipeline.
  repeat preserves_step;
    first [by apply preserves_zip_write|by apply preserves_stage_artifact].
Qed.

Lemma preserves_write_file_other q v p d :
  q ≠ p → preserves (file_is q v) (Fs.write_file p d).
Proof.
  intros Hne w Hq. unfold Fs.write_file, bind, get_world, modify, raise.
  repeat (match goal with |- context [if ?b then _ else _] =>
            destruct b end; try done).
  unfold file_is. simpl. by rewrite lookup_insert_ne.
Qed.

Lemma write_file_ok p d w w' :
  Fs.write_file p d w = (Ok (), w') → files w' !! p = Some d.
Proof.
  unfold Fs.write_file, bind, get_world, modify, raise.
  repeat (match goal with |- context [if ?b then _ else _] =>
            destruct b end; try done).
  intros [= <-]. simpl. apply lookup_insert_eq.
Qed.

Lemma preserves_write_base_archive q v lab_base zp ppls meta :
  q ≠ zp →
  preserves (file_is q v) (write_base_archive api lab_base zp ppls meta).
Proof.
  intros Hne. unfold write_base_archive, Zipfile.create, Zipfile.writestr.
  repeat preserves_step.
  - by apply preserves_write_file_other.
  - by apply preserves_stage_pipeline, file_is_stable.
  - by apply file_is_stable.
Qed.

(** A returning archive block leaves the archive with [transfer.json]
    as its last member. *)
Lemma write_base_archive_sealed lab_base zp ppls meta w w' :
  write_base_archive api lab_base zp ppls meta w = (Ok (), w') →
  ∃ ms, files w' !! zp = Some (Zip (ms ++ [("transfer.json", Doc meta)])).
Proof.
  unfold write_base_archive, Zipfile.create. unfold bind at 1.
  destruct (Fs.write_file zp (Zip []) w) as [[[]|e] w1] eqn:H1; [|done].
  apply write_file_ok in H1.
  unfold bind at 1.
  pose proof (preserves_for_each (zip_at zp) ppls
    (stage_pipeline api lab_base zp)
    (λ x, preserves_stage_pipeline zp _ lab_base x (zip_at_stable zp))
    w1 (ex_intro _ _ H1)) as [ms Hms].
  destruct (for_each ppls (stage_pipeline api lab_base zp) w1)
    as [[[]|e] w2]; [|done].
  simpl in Hms. unfold Zipfile.writestr, Zipfile.append, modify.
  intros [= <-]. simpl. rewrite Hms. exists ms. apply lookup_insert_eq.
Qed.

Lemma Path_t s : ∃ h r, Path (String "t"%char s) = String "t"%char h :: r.
Proof.
  unfold Path, root_of, segments. simpl.
  destruct (PyStr.split_on slash s) as [|seg segs]; simpl;
    rewrite filter_cons_True by (split; discriminate); eauto.
Qed.

Lemma zip_path_ne_clone_json (clone_dir : path) :
  clone_dir // "transfers" // (mint_transfer_id clock "t_" +:+ ".zip")
  ≠ clone_dir // "clone.json".
Proof.
  assert (∃ s, mint_transfer_id clock "t_" +:+ ".zip" = String "t"%char s)
    as [s ->] by (eexists; reflexivity).
  destruct (Path_t s) as (h & r & ->). unfold joinpath. simpl.
  rewrite <-app_assoc. intros Heq%app_inv_head. discriminate.
Qed.

Lemma build_keeps_registry ppls clone_id transfer_type w :
  files (build_base_archive api clock ppls clone_id transfer_type w).2
    !! clone_json_of w clone_id
  = files w !! clone_json_of w clone_id.
Proof.
  unfold build_base_archive, clone_json_of.
  erewrite bind_ok by reflexivity.
  unfold _ensure_base. destruct (decide _); [|done].
  erewrite bind_ok by reflexivity. erewrite bind_ok by reflexivity.
  destruct (negb _); [done|].
  set (cj := _ // "clone.json").
  match goal with |- files (bind ?m ?k w).2 !! _ = _ =>
    cut (preserves (file_is cj (files w !! cj)) (bind m k));
      [intros H; exact (H w eq_refl)|] end.
  repeat preserves_step.
  - apply preserves_mkdir. by intros w1 w2 Hf Hq; unfold file_is; rewrite Hf.
  - apply preserves_write_base_archive. subst cj.
    intros Heq. by eapply zip_path_ne_clone_json.
Qed.

Lemma build_ok_sealed ppls clone_id transfer_type w cd zp tid w' :
  build_base_archive api clock ppls clone_id transfer_type w
    = (Ok (cd, zp, tid), w') →
  cd // "clone.json" = clone_json_of w clone_id ∧
  ∃ ms meta,
    files w' !! zp = Some (Zip (ms ++ [("transfer.json", Doc meta)])).
Proof.
  unfold build_base_archive, clone_json_of.
  erewrite bind_ok by reflexivity.
  unfold _ensure_base. destruct (decide _); [|done].
  erewrite bind_ok by reflexivity. erewrite bind_ok by reflexivity.
  destruct (negb _); [done|].
  unfold bind at 1. destruct (Fs.mkdir _ _ _ w) as [[[]|err] w1]; [|done].
  unfold bind at 1.
  destruct (write_base_archive _ _ _ _ _ w1) as [[[]|err] w2] eqn:Hw; [|done].
  intros [= <- <- <- <-]. split; [done|].
  apply write_base_archive_sealed in Hw as [ms Hms]. eauto.
Qed.

(** C10: at the end of the archive block of a base export, [clone.json]
    is as it was before the export. If the block was left by an exception
    (unregistered clone, a pipeline failing verification, an error while
    staging a config), the export ends there with that exception.
    Otherwise the archive is complete, with [transfer.json] as its last
    member, and only then does the export go on to append the transfer id
    to [clone.json]. *)
Theorem registry_written_after_archive ppls clone_id transfer_type mode w :
  let r := build_base_archive api clock ppls clone_id transfer_type w in
  files r.2 !! clone_json_of w clone_id = files w !! clone_json_of w clone_id
  ∧ match r.1 with
    | Raise e =>
        _export_base_to_remote api clock ppls clone_id transfer_type mode w
        = (Raise e, r.2)
    | Ok (clone_dir, zip_path, transfer_id) =>
        clone_dir // "clone.json" = clone_json_of w clone_id ∧
        (∃ ms meta, files r.2 !! zip_path
           = Some (Zip (ms ++ [("transfer.json", Doc meta)]))) ∧
        _export_base_to_remote api clock ppls clone_id transfer_type mode w
        = (register_transfer clone_dir transfer_id ;;
           (if decide (mode = "move") then remove_artifacts api ppls
            else ret ()) ;;
           ret zip_path) r.2
    end.
Proof.
  intros r. split; [apply build_keeps_registry|].
  subst r. unfold _export_base_to_remote.
  destruct (build_base_archive api clock ppls clone_id transfer_type w)
    as [[[[cd zp] tid]|e] w'] eqn:Hb; simpl.
  - pose proof (build_ok_sealed _ _ _ _ _ _ _ _ Hb) as [Hcd Hsealed].
    split_and!; [done..|]. by erewrite bind_ok by exact Hb.
  - by apply bind_raise.
Qed.

Lemma stage_pipeline_invalid lab_base zp bad :
  (∀ w, pl_verify api w bad = false) →
  ∀ w, raised (stage_pipeline api lab_base zp bad w).1 = true.
Proof.
  intros Hbad w. unfold stage_pipeline. erewrite bind_ok by reflexivity.
  by rewrite Hbad.
Qed.

Lemma write_base_archive_invalid lab_base zp ppls meta bad w0 :
  bad ∈ ppls → (∀ w, pl_verify api w bad = false) →
  ∃ e w1,
    (Zipfile.create zp ;; for_each ppls (stage_pipeline api lab_base zp)) w0
      = (Raise e, w1) ∧
    write_base_archive api lab_base zp ppls meta w0 = (Raise e, w1).
Proof.
  intros Hin Hbad. unfold write_base_archive.
  destruct (Zipfile.create zp w0) as [[[]|e] w1] eqn:Hc.
  - destruct (raised_true (for_each ppls (stage_pipeline api lab_base zp) w1))
      as (e & w2 & Hloop).
    { eapply for_each_raises; eauto using stage_pipeline_invalid. }
    exists e, w2. split; erewrite bind_ok by exact Hc; [done|].
    by apply bind_raise.
  - exists e, w1. split; by apply bind_raise.
Qed.

Lemma build_invalid ppls clone_id transfer_type bad w :
  bad ∈ ppls → (∀ w, pl_verify api w bad = false) →
  raised (build_base_archive api clock ppls clone_id transfer_type w).1 = true.
Proof.
  intros Hin Hbad. unfold build_base_archive.
  erewrite bind_ok by reflexivity.
  unfold _ensure_base. destruct (decide _); [|done].
  erewrite bind_ok by reflexivity. erewrite bind_ok by reflexivity.
  destruct (negb _); [done|].
  unfold bind at 1. destruct (Fs.mkdir _ _ _ w) as [[[]|err] w1]; [|done].
  match goal with |- context [write_base_archive _ ?lb ?zp _ ?meta] =>
    destruct (write_base_archive_invalid lb zp ppls meta bad w1 Hin Hbad)
      as (err & w2 & _ & Hw) end.
  by erewrite bind_raise by exact Hw.
Qed.









End ExportFacts.

Section ExportScenario.
Import PyPath Transfer Scenario.



End ExportScenario.

(** ** Import: role gate and archive safety *)

Section ImportFacts.
Import PyPath PyObj Transfer.
Implicit Types (w : World) (F : gmap path fdata).

Lemma files_are_on_files F : on_files (files_are F).
Proof. intros w w' Hf Hw. unfold files_are. by rewrite Hf. Qed.

Lemma fails_clean_raise {X} F e w :
  files w = F → fails_clean F (raise (A:=X) e) w.
Proof. intros. by exists e, w. Qed.

Lemma fails_clean_bind {X Y} F (m : M X) (k : X → M Y) w :
  preserves (files_are F) m → files w = F →
  (∀ a w1, files w1 = F → fails_clean F (k a) w1) →
  fails_clean F (bind m k) w.
Proof.
  intros Hm Hw Hk. specialize (Hm w Hw). unfold fails_clean, bind.
  destruct (m w) as [[a|e] w1]; simpl in *; [by apply Hk|by exists e, w1].
Qed.

Lemma fails_clean_bind_l {X Y} F (m : M X) (k : X → M Y) w :
  fails_clean F m w → fails_clean F (bind m k) w.
Proof. intros (e & w' & Hm & Hw'). exists e, w'. by rewrite (bind_raise _ _ _ _ _ Hm). Qed.

Lemma fails_clean_bind_ok {X Y} F (m : M X) (k : X → M Y) w a w1 :
  m w = (Ok a, w1) → fails_clean F (k a) w1 → fails_clean F (bind m k) w.
Proof. intros Hm. unfold fails_clean. by rewrite (bind_ok _ _ _ _ _ Hm). Qed.

Lemma open_read_zip p ms w :
  files w !! p = Some (Zip ms) → Zipfile.open_read p w = (Ok ms, w).
Proof.
  intros Hp. unfold Zipfile.open_read, Fs.read_file, bind, get_world.
  by rewrite Hp.
Qed.

(** The scan of [_safe_extract] stops at the first unsafe member. *)
Lemma scan_rejects (ms : list member) w :
  (∃ m, m ∈ ms ∧ unsafe_name m.1 = true) →
  for_each ms (λ m,
    if unsafe_name m.1 then raise (ValueError "Unsafe ZIP content detected")
    else ret ()) w
  = (Raise (ValueError "Unsafe ZIP content detected"), w).
Proof.
  intros (m & Hin & Hm). induction ms as [|m' ms IH]; simpl.
  - by apply elem_of_nil in Hin.
  - destruct (unsafe_name m'.1) eqn:Hm'; [done|].
    erewrite bind_ok by reflexivity.
    apply elem_of_cons in Hin as [->|Hin]; [congruence|by apply IH].
Qed.

Lemma safe_extract_rejects F zip_path target_dir ms w :
  F !! zip_path = Some (Zip ms) →
  (∃ m, m ∈ ms ∧ unsafe_name m.1 = true) →
  files w = F →
  fails_clean F (_safe_extract zip_path target_dir) w.
Proof.
  intros Hzip Hunsafe Hw. unfold _safe_extract.
  apply fails_clean_bind;
    [apply preserves_mkdir, files_are_on_files|done|]. intros [] w1 Hw1.
  eapply fails_clean_bind_ok; [apply open_read_zip; by rewrite Hw1|].
  apply fails_clean_bind_l. eexists _, _. split; [by apply scan_rejects|done].
Qed.

(** A name that starts with a slash or has a [".."] segment fails the
    test of [_safe_extract]. *)
Lemma unsafe_name_sound name :
  String.prefix "/" name = true ∨ ".." ∈ PyStr.split_on slash name →
  unsafe_name name = true.
Proof.
  unfold unsafe_name, Path, root_of. intros [Habs|Hdots].
  - rewrite Habs. by destruct (_ && _).
  - apply orb_true_iff. right. apply bool_decide_eq_true.
    apply elem_of_app. right. unfold segments.
    apply list_elem_of_filter. split; [|done]. split; discriminate.
Qed.

Ltac preserves_files :=
  unfold get_shared_data, _ensure_remote, _ensure_base, Zipfile.open_read;
  repeat first
    [ preserves_step
    | apply preserves_mkdir, files_are_on_files
    | match goal with |- preserves _ (match ?x with _ => _ end) =>
        destruct x end ].

Ltac fc_bind :=
  apply fails_clean_bind;
    [by preserves_files|done|let Hf := fresh "Hfiles" in intros ? ? Hf].

Lemma import_on_remote_rejects F zip_path meta mode ms w :
  F !! zip_path = Some (Zip ms) →
  (∃ m, m ∈ ms ∧ unsafe_name m.1 = true) →
  files w = F →
  fails_clean F (_import_on_remote zip_path meta mode) w.
Proof.
  intros Hzip Hunsafe Hw. unfold _import_on_remote.
  do 5 fc_bind. by apply fails_clean_bind_l, (safe_extract_rejects _ _ _ ms).
Qed.

Lemma import_on_base_rejects F zip_path meta ms w :
  F !! zip_path = Some (Zip ms) →
  (∃ m, m ∈ ms ∧ unsafe_name m.1 = true) →
  files w = F →
  fails_clean F (_import_on_base zip_path meta) w.
Proof.
  intros Hzip Hunsafe Hw. unfold _import_on_base.
  do 3 fc_bind. by apply fails_clean_bind_l, (safe_extract_rejects _ _ _ ms).
Qed.

(** C1: when some member name of the archive is absolute or has a
    parent-directory segment, [import_transfer] raises, and the regular
    files on disk are exactly those from before the call: nothing was
    extracted. *)
Theorem import_rejects_unsafe_archive zip_path ms name w :
  files w !! zip_path = Some (Zip ms) →
  name ∈ ms.*1 →
  String.prefix "/" name = true ∨ ".." ∈ PyStr.split_on slash name →
  ∃ e w', import_transfer zip_path w = (Raise e, w') ∧ files w' = files w.
Proof.
  intros Hzip Hname Hbad.
  assert (∃ m, m ∈ ms ∧ unsafe_name m.1 = true) as Hunsafe.
  { apply list_elem_of_fmap in Hname as (m & -> & Hm).
    exists m. eauto using unsafe_name_sound. }
  change (fails_clean (files w) (import_transfer zip_path) w).
  unfold import_transfer. fc_bind.
  eapply fails_clean_bind_ok; [apply open_read_zip; by rewrite Hfiles|].
  do 3 fc_bind.
  destruct (eq_str _ _); [|destruct (eq_str _ _)].
  - fc_bind. by eapply import_on_remote_rejects.
  - fc_bind. by eapply import_on_base_rejects.
  - by apply fails_clean_raise.
Qed.

(** C2: in a remote lab, [export_transfer] with [transfer_type="run"]
    raises and leaves the world untouched; in a base lab, importing an
    archive whose [transfer.json] says [base_to_remote] raises and leaves
    the world untouched. *)
Theorem role_gating api clock ppls clone_id prev mode zip_path ms meta
    (w_remote w_base : World) :
  lab_role (settings w_remote) = Some "remote" →
  lab_role (settings w_base) = Some "base" →
  files w_base !! zip_path = Some (Zip ms) →
  Zipfile.read ms "transfer.json" = Ok (Doc meta) →
  py_get meta "direction" = Ok (Some (JStr "base_to_remote")) →
  export_transfer api clock ppls clone_id "run" prev mode w_remote
    = (Raise (RuntimeError "Remote can only export results back to base"),
       w_remote) ∧
  import_transfer zip_path w_base
    = (Raise (RuntimeError "Operation allowed only in REMOTE lab"), w_base).
Proof.
  intros Hremote Hbase Hzip Hread Hdir. split.
  - unfold export_transfer. erewrite bind_ok by reflexivity.
    rewrite Hremote. by repeat case_decide.
  - unfold import_transfer. erewrite bind_ok by reflexivity.
    erewrite bind_ok by (by apply open_read_zip).
    rewrite Hread. erewrite bind_ok by reflexivity. simpl.
    erewrite bind_ok by reflexivity.
    rewrite Hdir. erewrite bind_ok by reflexivity. simpl.
    unfold _ensure_remote. rewrite Hbase. by case_decide.
Qed.

End ImportFacts.

Section ImportScenario.
Import PyPath PyObj Transfer Scenario.

(** The remote scenario lab importing the archive that climbs out. *)
Lemma import_rejects_unsafe_archive_witness :
  files (with_inbox evil_archive remote_world) !! inbox
    = Some (Zip evil_archive) ∧
  "../../etc/passwd" ∈ evil_archive.*1 ∧
  (String.prefix "/" "../../etc/passwd" = true ∨
   ".." ∈ PyStr.split_on slash "../../etc/passwd") ∧
  ∃ e w', import_transfer inbox (with_inbox evil_archive remote_world)
            = (Raise e, w') ∧
          files w' = files (with_inbox evil_archive remote_world).
Proof.
  assert (files (with_inbox evil_archive remote_world) !! inbox
          = Some (Zip evil_archive)) as Hzip by reflexivity.
  assert ("../../etc/passwd" ∈ evil_archive.*1) as Hname
    by (by repeat constructor).
  assert (String.prefix "/" "../../etc/passwd" = true ∨
          ".." ∈ PyStr.split_on slash "../../etc/passwd") as Hbad
    by (right; by repeat constructor).
  split_and!; [done..|].
  exact (import_rejects_unsafe_archive inbox evil_archive "../../etc/passwd"
           (with_inbox evil_archive remote_world) Hzip Hname Hbad).
Defined.

(** A run export on the remote lab, and a run archive handed to the base
    lab. *)
Lemma role_gating_witness :
  lab_role (settings remote_world) = Some "remote" ∧
  lab_role (settings (with_inbox plain_archive base_world)) = Some "base" ∧
  files (with_inbox plain_archive base_world) !! inbox
    = Some (Zip plain_archive) ∧
  Zipfile.read plain_archive "transfer.json" = Ok (Doc run_meta) ∧
  py_get run_meta "direction" = Ok (Some (JStr "base_to_remote")) ∧
  export_transfer api0 clk ["p1"] None "run" None "copy" remote_world
    = (Raise (RuntimeError "Remote can only export results back to base"),
       remote_world) ∧
  import_transfer inbox (with_inbox plain_archive base_world)
    = (Raise (RuntimeError "Operation allowed only in REMOTE lab"),
       with_inbox plain_archive base_world).
Proof.
  split_and!; [reflexivity..| |];
    apply (role_gating api0 clk ["p1"] None None "copy" inbox plain_archive
             run_meta remote_world (with_inbox plain_archive base_world));
    reflexivity.
Defined.

End ImportScenario.

(** ** The results export: where [transfer.json] ends up *)

Section ResultsExportFacts.
Import PyPath PyObj Transfer.
Context (api : PipeLineAPI) (clock : Clock).

Lemma zip_starts_with_stable zp m0 : append_stable zp (zip_starts_with zp m0).
Proof.
  split.
  - intros w w' Hf [ms Hms]. exists ms. by rewrite Hf.
  - intros m w [ms Hms]. unfold zip_starts_with, Zipfile.append, modify.
    simpl. rewrite Hms. exists (ms ++ [m]). apply lookup_insert_eq.
Qed.

Lemma preserves_results_artifact zp I pplid art :
  append_stable zp I → preserves I (results_artifact api zp pplid art).
Proof.
  intros HI. unfold results_artifact.
  repeat preserves_step; by apply preserves_zip_write.
Qed.

(** Once the results archive has been created, [transfer.json] is its
    first member, whatever is staged after it. *)
Lemma write_results_archive_meta_first zp ppls meta w w1 :
  Zipfile.create zp w = (Ok (), w1) →
  zip_starts_with zp ("transfer.json", Doc meta)
    (write_results_archive api zp ppls meta w).2.
Proof.
  intros Hc. unfold write_results_archive.
  erewrite bind_ok by exact Hc.
  apply write_file_ok in Hc.
  assert (zip_starts_with zp ("transfer.json", Doc meta)
            (Zipfile.writestr zp "transfer.json" (Doc meta) w1).2) as Hfirst.
  { unfold zip_starts_with, Zipfile.writestr, Zipfile.append, modify. simpl.
    rewrite Hc. exists []. apply lookup_insert_eq. }
  unfold bind at 1.
  destruct (Zipfile.writestr zp "transfer.json" (Doc meta) w1)
    as [[[]|e] w2]; [|done].
  revert Hfirst. simpl. generalize w2. apply preserves_for_each. intros pplid.
  repeat preserves_step.
  by apply preserves_results_artifact, zip_starts_with_stable.
Qed.

End ResultsExportFacts.

Section CodeAtFailingInputs.
Import PyPath PyObj Transfer Scenario.

(** C4, the results export on the scenario lab: the archive it returns
    has [transfer.json] as its first member, and its last member is the
    result file of [p1]. *)
Theorem results_export_meta_not_last :
  let r := export_transfer api0 clk ["p1"] None "results" None "copy"
             remote_world in
  r.1 = Ok remote_zip ∧
  (fst <$> (match files r.2 !! remote_zip with
            | Some (Zip ms) => head ms
            | _ => None
            end)) = Some "transfer.json" ∧
  Zipfile.last_member_name (files r.2 !! remote_zip)
    = Some "Results/p1/out/r.txt".
Proof. vm_compute. done. Qed.

(** The base export on the same lab does end with [transfer.json]. *)
Lemma base_export_meta_last :
  let r := export_transfer api0 clk ["p1"] (Some "c1") "run" None "copy"
             base_world in
  r.1 = Ok base_zip ∧
  Zipfile.last_member_name (files r.2 !! base_zip) = Some "transfer.json".
Proof. vm_compute. done. Qed.

Lemma prefix_refl s : String.prefix s s = true.
Proof.
  induction s as [|c s IH]; simpl; [done|].
  by destruct (Ascii.ascii_dec c c).
Qed.

(** Whatever the path, a first [path_map] entry with a string value makes
    the loop of [map_src] raise. *)
Lemma map_src_loop_raises payload src key dst items :
  Mapper.map_src_loop payload src ((key, JStr dst) :: items)
  = Raise (TypeError "replace() argument 2 must be str, not PosixPath").
Proof. simpl. unfold PyStr.startswith. by rewrite prefix_refl. Qed.

(** Without a recorded transfer [map_src] returns the normalised path. *)
Lemma map_src_no_transfer self w src pplid :
  Mapper.lookup_transfer self pplid = Ok None →
  Mapper.map_src self w src (Some pplid) = Ok (as_posix (Path src)).
Proof. intros H. unfold Mapper.map_src. by rewrite H. Qed.

(** C6, [map_src] on the scenario lab, where [p1] came with transfer [t1]
    whose [path_map] sends ["/data"] to ["d"]: the call raises instead of
    returning the remapped path; for a pipeline without transfer the
    normalised path comes back. *)
Theorem map_src_raises_on_mapped_path :
  Mapper.map_src lineage mapped_world "/data/x" (Some (JStr "p1"))
  = Raise (TypeError "replace() argument 2 must be str, not PosixPath") ∧
  Mapper.map_src lineage mapped_world "/x/y" (Some (JStr "p2"))
  = Ok "/x/y".
Proof. vm_compute. done. Qed.

(** The [map_path] of [plf1/transfer.py] does replace the matching
    prefix. *)
Lemma map_path_replaces_prefix :
  map_path {| rc_path_map := [("/other", "/o"); ("/data", "/mnt/d")];
              rc_component_map := []; rc_transfer_id := Some "t1" |}
    "/data/x" = "/mnt/d/x".
Proof. reflexivity. Qed.

(** A string under a key with ["src"] in it stops [remap]. *)
Lemma remap_src_key_raises self w pplid k v rest :
  PyStr.contains "loc" k = false →
  PyStr.contains "src" k = true →
  Mapper.remap self w pplid (JDict ((k, JStr v) :: rest))
  = (Raise (TypeError
       "map_src() missing 1 required positional argument: 'pplid'"),
     JDict ((k, JStr v) :: rest)).
Proof. intros Hloc Hsrc. simpl. by rewrite Hloc, Hsrc. Qed.

(** C7, [map_cnfg] on a config with a ["loc"] and a ["src"] entry: the
    location is rewritten in place, then the call raises at the ["src"]
    entry, which stays as it was. *)
Theorem map_cnfg_raises_on_src :
  Mapper.map_cnfg lineage mapped_world p1_config
  = (Raise (TypeError
       "map_src() missing 1 required positional argument: 'pplid'"),
     JDict [("pplid", JStr "p1"); ("loc", JStr "B");
            ("src", JStr "/data/x")]).
Proof. vm_compute. done. Qed.

(** Without a [Clones] directory the report has the six columns. *)
Lemma get_clones_no_directory w :
  lab_role (settings w) = Some "base" →
  Fs.exists_ w (Path (data_path (settings w)) // "Clones") = false →
  get_clones w = (Ok (DataFrame_of_columns clone_columns), w).
Proof.
  intros Hrole Hex. unfold get_clones. erewrite bind_ok by reflexivity.
  rewrite Hrole. case_decide; [done|].
  erewrite bind_ok by reflexivity. by rewrite Hex.
Qed.

(** With a [Clones] directory and no clone in it the report has none. *)
Lemma get_clones_empty_directory w :
  lab_role (settings w) = Some "base" →
  Fs.is_dir w (Path (data_path (settings w)) // "Clones") = true →
  Fs.iterdir_dirs w (Path (data_path (settings w)) // "Clones") = [] →
  get_clones w = (Ok {| columns := []; records := [] |}, w).
Proof.
  intros Hrole Hdir Hnone. unfold get_clones. erewrite bind_ok by reflexivity.
  rewrite Hrole. case_decide; [done|].
  erewrite bind_ok by reflexivity. unfold Fs.exists_. rewrite Hdir. simpl.
  by rewrite Hnone.
Qed.

(** C9, [get_clones] on a base lab whose [Clones] directory is empty: the
    table has no rows and no columns. *)
Theorem get_clones_empty_registry_no_columns :
  ∃ df, get_clones empty_registry = (Ok df, empty_registry) ∧
        records df = [] ∧ columns df = [] ∧ columns df ≠ clone_columns.
Proof. eexists. split; [by vm_compute|]. done. Qed.

End CodeAtFailingInputs.

(** * Further properties *)

(** ** The dependency walk on arbitrary stores *)

Section ResolverMore.
Import Resolver.
Implicit Types (db : Db) (x y s p : string).

Lemma ancestor_trans db x y z :
  ancestor db x y → ancestor db y z → ancestor db x z.
Proof. unfold ancestor. intros. by etrans. Qed.

(** [get_dependencies] with [recursive=True] returns, on every store and
    without repetition, exactly the transitive predecessors of the id; the
    id itself is among them precisely when it lies on a cycle. *)
Theorem get_dependencies_exact db s :
  ∃ deps, get_dependencies db s true = Some deps ∧ NoDup deps ∧
    (∀ y, y ∈ deps ↔ ancestor db s y) ∧
    (s ∈ deps ↔ ancestor db s s) ∧
    (acyclic db → s ∉ deps).
Proof.
  destruct (get_dependencies_ancestors db s) as (deps & Hd & Hnd & Hin).
  exists deps. split_and!; [done..| |].
  - apply Hin.
  - intros Hacyc Hs. apply (Hacyc s). by apply Hin.
Qed.

(** [get_dependencies] with [recursive=False] makes one lookup and returns
    the direct predecessor alone, or nothing. *)
Theorem get_dependencies_not_recursive db s :
  get_dependencies db s false
    = Some (match direct_pred db s with Some p => [p] | None => [] end) ∧
  lookups <$> get_dependencies_walk db s false = Some [s].
Proof.
  unfold get_dependencies, get_dependencies_walk, depth_bound. simpl.
  destruct (direct_pred db s) as [p|]; simpl.
  - rewrite decide_False by set_solver. simpl.
    rewrite union_empty_r_L, elements_singleton. done.
  - by rewrite elements_empty.
Qed.

(** On every store, cyclic ones included, [resolve_dependencies] returns
    a list without repetition that holds every input id and is closed
    under the predecessor lookup. *)
Theorem resolve_dependencies_closed db pplids :
  ∃ out, resolve_dependencies db pplids = Some out ∧ NoDup out ∧
    (∀ x, x ∈ pplids → x ∈ out) ∧
    (∀ x p, x ∈ out → direct_pred db x = Some p → p ∈ out).
Proof.
  destruct (resolve_dependencies_spec db pplids) as (out & Ho & Hnd & Hin).
  exists out. split_and!; [done..| |].
  - intros x Hx. apply Hin. by left.
  - intros x p Hx Hp. apply Hin. right. apply Hin in Hx as [Hx|(q & Hq & Hqx)].
    + exists x. split; [done|]. by apply tc_once.
    + exists q. split; [done|]. eapply tc_r; [done|]. done.
Qed.

(** Resolving the output of [resolve_dependencies] again gives the same
    ids. *)
Theorem resolve_dependencies_idempotent db pplids :
  ∃ out out2,
    resolve_dependencies db pplids = Some out ∧
    resolve_dependencies db out = Some out2 ∧
    out2 ≡ₚ out.
Proof.
  destruct (resolve_dependencies_spec db pplids) as (out & Ho & Hnd & Hin).
  destruct (resolve_dependencies_spec db out) as (out2 & Ho2 & Hnd2 & Hin2).
  exists out, out2. split_and!; [done..|].
  apply NoDup_Permutation; [done..|]. intros x. rewrite Hin2. split.
  - intros [Hx|(q & Hq & Hqx)]; [done|]. apply Hin.
    apply Hin in Hq as [Hq|(r & Hr & Hrq)]; right.
    + by exists q.
    + exists r. split; [done|]. by eapply ancestor_trans.
  - by left.
Qed.

(** The ids returned depend on the input list only through its elements:
    order and repetition of the requested ids do not matter. *)
Theorem resolve_dependencies_same_elements db (l1 l2 : list string) :
  (∀ x, x ∈ l1 ↔ x ∈ l2) →
  ∃ out1 out2,
    resolve_dependencies db l1 = Some out1 ∧
    resolve_dependencies db l2 = Some out2 ∧
    out1 ≡ₚ out2.
Proof.
  intros Hsame.
  destruct (resolve_dependencies_spec db l1) as (out1 & Ho1 & Hnd1 & Hin1).
  destruct (resolve_dependencies_spec db l2) as (out2 & Ho2 & Hnd2 & Hin2).
  exists out1, out2. split_and!; [done..|].
  apply NoDup_Permutation; [done..|]. intros x. rewrite Hin1, Hin2.
  split; (intros [Hx|(q & Hq & Hqx)];
    [left; by apply Hsame|right; exists q; split; [by apply Hsame|done]]).
Qed.

Lemma resolve_dependencies_same_elements_witness :
  (∀ x, x ∈ ["p2"; "p1"] ↔ x ∈ ["p1"; "p2"; "p1"]) ∧
  ∃ out1 out2,
    resolve_dependencies chain3 ["p2"; "p1"] = Some out1 ∧
    resolve_dependencies chain3 ["p1"; "p2"; "p1"] = Some out2 ∧
    out1 ≡ₚ out2.
Proof.
  assert (∀ x, x ∈ ["p2"; "p1"] ↔ x ∈ ["p1"; "p2"; "p1"]) as Hsame.
  { intros x. rewrite !elem_of_cons, !elem_of_nil. tauto. }
  split; [exact Hsame|].
  exact (resolve_dependencies_same_elements chain3 _ _ Hsame).
Defined.

End ResolverMore.

(** ** Calls that are refused before anything is written *)

Section RefusedCalls.
Import PyPath PyObj Transfer.
Context (api : PipeLineAPI) (clock : Clock).

(** A base export without a clone id, or with an empty one, raises
    [ValueError] and leaves the world as it was. *)
Theorem export_base_requires_clone_id ppls clone_id transfer_type prev mode w :
  lab_role (settings w) = Some "base" →
  clone_id = None ∨ clone_id = Some "" →
  export_transfer api clock ppls clone_id transfer_type prev mode w
  = (Raise (ValueError "clone_id required for base export"), w).
Proof.
  intros Hrole Hid. unfold export_transfer. erewrite bind_ok by reflexivity.
  rewrite Hrole. rewrite decide_True by done. by destruct Hid as [-> | ->].
Qed.

(** With a lab role that is neither [base] nor [remote] the export raises
    [RuntimeError] and leaves the world as it was. *)
Theorem export_unknown_role ppls clone_id transfer_type prev mode w :
  lab_role (settings w) ≠ Some "base" →
  lab_role (settings w) ≠ Some "remote" →
  export_transfer api clock ppls clone_id transfer_type prev mode w
  = (Raise (RuntimeError "Unknown lab role"), w).
Proof.
  intros Hb Hr. unfold export_transfer. erewrite bind_ok by reflexivity.
  by rewrite !decide_False by done.
Qed.

(** A base export to a clone whose directory does not exist raises
    [ValueError] before a transfer id is minted: no directory and no
    archive are created. *)
Theorem export_unregistered_clone ppls clone_id transfer_type prev mode w :
  lab_role (settings w) = Some "base" →
  clone_id ≠ "" →
  Fs.exists_ w (resolve (Path (data_path (settings w))) // "Clones"
                // clone_id) = false →
  export_transfer api clock ppls (Some clone_id) transfer_type prev mode w
  = (Raise (ValueError ("Clone '" +:+ clone_id +:+ "' not registered")), w).
Proof.
  intros Hrole Hid Hex. unfold export_transfer. erewrite bind_ok by reflexivity.
  rewrite Hrole. rewrite decide_True by done. rewrite decide_False by done.
  unfold _export_base_to_remote, build_base_archive.
  apply bind_raise. erewrite bind_ok by reflexivity.
  unfold _ensure_base. rewrite Hrole. rewrite decide_True by done.
  erewrite bind_ok by reflexivity. erewrite bind_ok by reflexivity.
  by rewrite Hex.
Qed.

Lemma read_missing (ms : list member) name :
  (∀ m, m ∈ ms → m.1 ≠ name) →
  Zipfile.read ms name = Raise (KeyError (Zipfile.no_item name)).
Proof.
  intros Hno. unfold Zipfile.read.
  replace (filter (λ m : member, m.1 = name) ms) with (@nil member); [done|].
  symmetry. induction ms as [|m ms IH]; [done|].
  rewrite filter_cons_False by (apply Hno; by left).
  apply IH. intros m' Hm'. apply Hno. by right.
Qed.

(** An archive without a [transfer.json] member is refused with the
    [KeyError] of [zipfile], whose argument is the sentence that names the
    missing item; nothing is extracted and no directory is created. *)
Theorem import_missing_metadata zip_path ms w :
  files w !! zip_path = Some (Zip ms) →
  (∀ m, m ∈ ms → m.1 ≠ "transfer.json") →
  import_transfer zip_path w
  = (Raise (KeyError "There is no item named 'transfer.json' in the archive"),
     w).
Proof.
  intros Hzip Hno. unfold import_transfer. erewrite bind_ok by reflexivity.
  erewrite bind_ok by (by apply open_read_zip).
  apply bind_raise. unfold lift. by rewrite read_missing.
Qed.

(** The mirror of the role gate on import: a results archive
    ([remote_to_base]) handed to a remote lab is refused, and so is an
    archive whose direction is neither of the two known ones, whatever
    the role; the world stays as it was. *)
Theorem import_direction_gate zip_path ms meta direction w :
  files w !! zip_path = Some (Zip ms) →
  Zipfile.read ms "transfer.json" = Ok (Doc meta) →
  py_get meta "direction" = Ok direction →
  eq_str direction "base_to_remote" = false →
  (eq_str direction "remote_to_base" = true →
   lab_role (settings w) = Some "remote") →
  import_transfer zip_path w
  = (Raise (RuntimeError
       (if eq_str direction "remote_to_base"
        then "Operation allowed only in BASE lab"
        else "Unknown transfer direction")), w).
Proof.
  intros Hzip Hread Hdir Hnot Hrole.
  unfold import_transfer. erewrite bind_ok by reflexivity.
  erewrite bind_ok by (by apply open_read_zip).
  rewrite Hread. erewrite bind_ok by reflexivity. simpl.
  erewrite bind_ok by reflexivity.
  rewrite Hdir. erewrite bind_ok by reflexivity. rewrite Hnot.
  destruct (eq_str direction "remote_to_base"); [|done].
  apply bind_raise. unfold _ensure_base. rewrite (Hrole eq_refl).
  by rewrite decide_False.
Qed.

End RefusedCalls.

Section RefusedCallsScenario.
Import PyPath PyObj Transfer Scenario.

Lemma export_base_requires_clone_id_witness :
  lab_role (settings base_world) = Some "base" ∧
  ((None : option string) = None ∨ (None : option string) = Some "") ∧
  export_transfer api0 clk ["p1"] None "run" None "copy" base_world
  = (Raise (ValueError "clone_id required for base export"), base_world).
Proof.
  split; [reflexivity|]. split; [by left|].
  apply (export_base_requires_clone_id api0 clk ["p1"] None "run" None "copy"
           base_world); [reflexivity|by left].
Defined.

Lemma export_unknown_role_witness :
  lab_role (settings staging_world) ≠ Some "base" ∧
  lab_role (settings staging_world) ≠ Some "remote" ∧
  export_transfer api0 clk ["p1"] (Some "c1") "run" None "copy" staging_world
  = (Raise (RuntimeError "Unknown lab role"), staging_world).
Proof.
  assert (lab_role (settings staging_world) ≠ Some "base") as Hb by done.
  assert (lab_role (settings staging_world) ≠ Some "remote") as Hr by done.
  split; [exact Hb|]. split; [exact Hr|].
  exact (export_unknown_role api0 clk ["p1"] (Some "c1") "run" None "copy"
           staging_world Hb Hr).
Defined.

Lemma export_unregistered_clone_witness :
  lab_role (settings base_world) = Some "base" ∧
  "c2" ≠ "" ∧
  Fs.exists_ base_world
    (resolve (Path (data_path (settings base_world))) // "Clones" // "c2")
    = false ∧
  export_transfer api0 clk ["p1"] (Some "c2") "run" None "copy" base_world
  = (Raise (ValueError ("Clone '" +:+ "c2" +:+ "' not registered")),
     base_world).
Proof.
  assert ("c2" ≠ "") as Hid by done.
  split; [reflexivity|]. split; [exact Hid|]. split; [reflexivity|].
  apply (export_unregistered_clone api0 clk ["p1"] "c2" "run" None "copy"
           base_world); [reflexivity|exact Hid|reflexivity].
Defined.

Lemma import_missing_metadata_witness :
  files (with_inbox [("a.txt", Text "a")] remote_world) !! inbox
    = Some (Zip [("a.txt", Text "a")]) ∧
  (∀ m, m ∈ [("a.txt", Text "a")] → m.1 ≠ "transfer.json") ∧
  import_transfer inbox (with_inbox [("a.txt", Text "a")] remote_world)
  = (Raise (KeyError "There is no item named 'transfer.json' in the archive"),
     with_inbox [("a.txt", Text "a")] remote_world).
Proof.
  assert (∀ m : member, m ∈ [("a.txt", Text "a")] → m.1 ≠ "transfer.json")
    as Hno.
  { intros m Hm. apply list_elem_of_singleton in Hm as ->. done. }
  split; [reflexivity|]. split; [exact Hno|].
  apply (import_missing_metadata inbox [("a.txt", Text "a")]
           (with_inbox [("a.txt", Text "a")] remote_world));
    [reflexivity|exact Hno].
Defined.

Lemma import_direction_gate_witness :
  files (with_inbox results_archive remote_world) !! inbox
    = Some (Zip results_archive) ∧
  Zipfile.read results_archive "transfer.json" = Ok (Doc results_meta0) ∧
  py_get results_meta0 "direction" = Ok (Some (JStr "remote_to_base")) ∧
  eq_str (Some (JStr "remote_to_base")) "base_to_remote" = false ∧
  (eq_str (Some (JStr "remote_to_base")) "remote_to_base" = true →
   lab_role (settings (with_inbox results_archive remote_world))
   = Some "remote") ∧
  import_transfer inbox (with_inbox results_archive remote_world)
  = (Raise (RuntimeError
       (if eq_str (Some (JStr "remote_to_base")) "remote_to_base"
        then "Operation allowed only in BASE lab"
        else "Unknown transfer direction")),
     with_inbox results_archive remote_world).
Proof.
  split_and!; [reflexivity..| |]; [by intros _|].
  apply (import_direction_gate inbox results_archive results_meta0
           (Some (JStr "remote_to_base"))
           (with_inbox results_archive remote_world));
    [reflexivity..|by intros _].
Defined.

End RefusedCallsScenario.

(** ** What the file operations can touch *)

Section GuardedFacts.
Import PyPath PyObj Transfer.
Implicit Types (w : World) (I : World → Prop) (P : path → Prop).

Lemma set_dirs_id w : set_dirs (λ ds, ds) w = w.
Proof. by destruct w. Qed.

Lemma mkdir_rec_set_dirs n parents exist_ok p w :
  ∃ f, (Fs.mkdir_rec n parents exist_ok p w).2 = set_dirs f w.
Proof.
  revert parents exist_ok p w.
  induction n as [|n IH]; intros parents exist_ok p w; simpl;
    unfold bind, get_world, modify, raise, ret; simpl;
    repeat (match goal with |- context [if ?b then _ else _] =>
              destruct b end; simpl;
            try (by exists (λ ds, ds); rewrite set_dirs_id);
            try (by eexists)).
  destruct (IH true true (parent p) w) as [f Hf].
  destruct (Fs.mkdir_rec n true true (parent p) w) as [[[]|e] w'];
    simpl in *; subst w'; [|by eexists].
  destruct (IH false exist_ok p (set_dirs f w)) as [g Hg].
  rewrite Hg. by exists (λ ds, g (f ds)).
Qed.

Lemma guarded_mkdir P I parents exist_ok p :
  guarded P I → preserves I (Fs.mkdir parents exist_ok p).
Proof.
  intros (Hd & _ & _) w Hw. unfold Fs.mkdir.
  destruct (mkdir_rec_set_dirs (length p) parents exist_ok p w) as [f ->].
  by apply Hd.
Qed.

Lemma guarded_write_file P I p d :
  guarded P I → P p → preserves I (Fs.write_file p d).
Proof.
  intros (_ & Hw & _) Hp w HI. unfold Fs.write_file, bind, get_world, modify,
    raise.
  repeat (match goal with |- context [if ?b then _ else _] =>
            destruct b end; try done).
  simpl. by apply Hw.
Qed.

Lemma guarded_unlink P I p :
  guarded P I → P p → preserves I (Fs.unlink p).
Proof.
  intros (_ & _ & Hdel) Hp w HI. unfold Fs.unlink, bind, get_world, modify,
    raise.
  destruct (Fs.is_file w p); [|done]. simpl. by apply Hdel.
Qed.

Lemma guarded_append P I zp m :
  guarded P I → P zp → preserves I (Zipfile.append zp m).
Proof.
  intros (_ & Hw & _) Hp w HI. unfold Zipfile.append, modify. simpl.
  destruct (files w !! zp) as [[s|j|ms]|] eqn:Hzp;
    try (by destruct w; unfold set_files; simpl in *; rewrite Hzp).
  replace (set_files _ w)
    with (set_files (λ fs, <[zp := Zip (ms ++ [m])]> fs) w);
    [by apply Hw|].
  destruct w; unfold set_files; simpl in *. by rewrite Hzp.
Qed.

Lemma guarded_zip_write P I zp src arc :
  guarded P I → P zp → preserves I (Zipfile.write zp src arc).
Proof.
  intros HI Hp. unfold Zipfile.write.
  repeat preserves_step; by apply (guarded_append P).
Qed.

Lemma guarded_extract_member P I target m :
  guarded P I →
  (∀ name, P (normpath (target ++ Zipfile.member_parts name))) →
  preserves I (Zipfile.extract_member target m).
Proof.
  intros HI Hp. unfold Zipfile.extract_member.
  repeat preserves_step;
    first [by apply (guarded_mkdir P)|by apply (guarded_write_file P)].
Qed.

Lemma guarded_safe_extract P I zip_path target :
  guarded P I →
  (∀ name, P (normpath (target ++ Zipfile.member_parts name))) →
  preserves I (_safe_extract zip_path target).
Proof.
  intros HI Hp. unfold _safe_extract, Zipfile.open_read, Zipfile.extractall.
  repeat first
    [ preserves_step
    | by apply (guarded_mkdir P)
    | by apply (guarded_extract_member P)
    | match goal with |- preserves _ (match ?x with _ => _ end) =>
        destruct x end ].
Qed.

Lemma guarded_materialize I lab_base extract_dir mode item :
  guarded (λ _, True) I →
  preserves I (materialize lab_base extract_dir mode item).
Proof.
  intros HI. unfold materialize.
  repeat first
    [ preserves_step
    | by apply (guarded_mkdir (λ _, True))
    | by apply (guarded_write_file (λ _, True))
    | by apply (guarded_unlink (λ _, True)) ].
Qed.

Lemma session_is_guarded st c : guarded (λ _, True) (session_is st c).
Proof. by split_and!; intros [] *. Qed.

Lemma file_is_guarded q v : guarded (λ p, p ≠ q) (file_is q v).
Proof.
  split_and!.
  - by intros [] *.
  - intros w p d Hp Hq. unfold file_is, set_files. simpl.
    by rewrite lookup_insert_ne.
  - intros w p Hp Hq. unfold file_is, set_files. simpl.
    by rewrite lookup_delete_ne.
Qed.









Lemma never_returns_bind {X Y} (m : M X) (k : X → M Y) :
  (∀ a, never_returns (k a)) → never_returns (bind m k).
Proof.
  intros Hk w. unfold bind. destruct (m w) as [[a|e] w']; [apply Hk|done].
Qed.

Lemma never_returns_lift_raise {X Y} e (k : X → M Y) :
  never_returns (bind (lift (Raise e)) k).
Proof. by intros w. Qed.

End GuardedFacts.

(** ** Import: what it can and cannot do *)

Section ImportMore.
Import PyPath PyObj Transfer.
Implicit Types (w : World).

Lemma prefix_slash_cons c seg :
  Ascii.eqb c slash = false → String.prefix "/" (String c seg) = false.
Proof.
  intros Hc%Ascii.eqb_neq. cbn [String.prefix].
  match goal with |- context [ascii_dec ?a ?b] =>
    destruct (ascii_dec a b) as [Heq|]; [|done] end.
  exfalso. apply Hc. symmetry. exact Heq.
Qed.

Lemma split_on_no_slash s seg :
  seg ∈ PyStr.split_on slash s → String.prefix "/" seg = false.
Proof.
  revert seg. induction s as [|c s IH]; intros seg; simpl.
  - by intros ->%list_elem_of_singleton.
  - destruct (Ascii.eqb c slash) eqn:Hc.
    + intros [->|Hin]%elem_of_cons; [done|by apply IH].
    + destruct (PyStr.split_on slash s) as [|seg' segs] eqn:Hs.
      * intros ->%list_elem_of_singleton. by apply prefix_slash_cons.
      * intros [->|Hin]%elem_of_cons; [by apply prefix_slash_cons|].
        apply IH. by right.
Qed.

(** The test of [_safe_extract] refuses exactly the names that start with
    a slash or have a [".."] segment between slashes; a name that merely
    contains two dots inside a segment passes. *)
Theorem unsafe_name_iff name :
  unsafe_name name = true ↔
  String.prefix "/" name = true ∨ ".." ∈ PyStr.split_on slash name.
Proof.
  split; [|apply unsafe_name_sound].
  unfold unsafe_name, Path, root_of.
  destruct (String.prefix "/" name) eqn:Habs; [by left|]. simpl.
  intros [Hhead|Hdots%bool_decide_eq_true]%orb_true_iff; right.
  - unfold segments, is_absolute in Hhead.
    destruct (filter _ _) as [|seg segs] eqn:Hf; [done|].
    assert (seg ∈ PyStr.split_on slash name) as Hseg.
    { eapply list_elem_of_filter. rewrite Hf. by left. }
    apply split_on_no_slash in Hseg. congruence.
  - unfold segments in Hdots. by apply list_elem_of_filter in Hdots as [_ ?].
Qed.

Lemma TransferContext_init_origin pm cm tid o :
  TransferContext_init
    [("path_map", pm); ("component_map", cm); ("transfer_id", tid);
     ("origin_lab_id", o)]
  = Raise (TypeError
      "__init__() got an unexpected keyword argument 'origin_lab_id'").
Proof. reflexivity. Qed.

Lemma preserves_lift_raise_bind {X Y} (I : World → Prop) e (k : X → M Y) :
  preserves I (bind (lift (Raise e)) k).
Proof. by intros w. Qed.

Lemma import_on_remote_raises zip_path meta mode :
  never_returns (_import_on_remote zip_path meta mode).
Proof.
  unfold _import_on_remote.
  do 11 (apply never_returns_bind; intros ?).
  rewrite TransferContext_init_origin. apply never_returns_lift_raise.
Qed.

Lemma import_on_remote_session st c zip_path meta mode :
  preserves (session_is st c) (_import_on_remote zip_path meta mode).
Proof.
  pose proof (session_is_guarded st c) as HI.
  unfold _import_on_remote, get_shared_data.
  repeat first
    [ rewrite TransferContext_init_origin; apply preserves_lift_raise_bind
    | preserves_step
    | by apply (guarded_mkdir (λ _, True))
    | by apply (guarded_safe_extract (λ _, True))
    | by apply guarded_materialize ].
Qed.

Lemma import_on_base_session st c zip_path meta :
  preserves (session_is st c) (_import_on_base zip_path meta).
Proof.
  pose proof (session_is_guarded st c) as HI.
  unfold _import_on_base, get_shared_data.
  repeat first [preserves_step|by apply (guarded_safe_extract (λ _, True))].
Qed.

(** [_import_on_remote] never returns: the keyword [origin_lab_id] that it
    passes to the constructor of [TransferContext] is not accepted, so
    every call that gets past extraction and materialisation ends in
    [TypeError], and the settings with their [transfer_context] slot are
    as before the call. *)
Theorem import_on_remote_never_returns zip_path meta mode w :
  ∃ e w', _import_on_remote zip_path meta mode w = (Raise e, w') ∧
          settings w' = settings w ∧
          transfer_context w' = transfer_context w.
Proof.
  pose proof (import_on_remote_raises zip_path meta mode w) as Hr.
  pose proof (import_on_remote_session (settings w) (transfer_context w)
                zip_path meta mode w (conj eq_refl eq_refl)) as [Hs Hc].
  destruct (_import_on_remote zip_path meta mode w) as [[v|e] w']; [done|].
  by exists e, w'.
Qed.

Lemma returns_only_bind {X Y} (Q : Y → Prop) (m : M X) (k : X → M Y) :
  (∀ a, returns_only Q (k a)) → returns_only Q (bind m k).
Proof.
  intros Hk w. unfold bind. destruct (m w) as [[a|e] w']; [apply Hk|done].
Qed.

Lemma returns_only_never {X} (Q : X → Prop) (m : M X) :
  never_returns m → returns_only Q m.
Proof. intros Hm w. specialize (Hm w). by destruct (m w).1. Qed.

(** [import_transfer] never attaches a transfer context and never returns
    [True]: when it returns at all it returns [None], from the import on
    base, and the shared settings are as before. *)
Theorem import_never_attaches_context zip_path w :
  let r := import_transfer zip_path w in
  settings r.2 = settings w ∧
  transfer_context r.2 = transfer_context w ∧
  match r.1 with Ok v => v = JNull | Raise _ => True end.
Proof.
  intros r. subst r. split_and!.
  1,2: cut (session_is (settings w) (transfer_context w)
              (import_transfer zip_path w).2); [by intros []|];
    cut (preserves (session_is (settings w) (transfer_context w))
           (import_transfer zip_path)); [by intros H; apply H|];
    unfold import_transfer, get_shared_data, Zipfile.open_read,
      _ensure_remote, _ensure_base;
    repeat first
      [ apply import_on_remote_session
      | apply import_on_base_session
      | preserves_step
      | match goal with |- preserves _ (match ?x with _ => _ end) =>
          destruct x end ].
  cut (returns_only (λ v, v = JNull) (import_transfer zip_path));
    [by intros H; apply H|].
  unfold import_transfer. do 5 (apply returns_only_bind; intros ?).
  destruct (eq_str _ _); [|destruct (eq_str _ _)].
  - apply returns_only_bind. intros _. apply returns_only_never.
    apply import_on_remote_raises.
  - apply returns_only_bind. intros _. unfold _import_on_base.
    do 4 (apply returns_only_bind; intros ?). by intros w'.
  - by intros w'.
Qed.



End ImportMore.

Section ImportMoreScenario.
Import PyPath PyObj Transfer Scenario.



(** The transfer id is not checked: with the id [../p1] the results
    archive is unpacked over the live files of pipeline [p1]. *)
Example import_on_base_leaves_results_dir :
  let meta := JDict [("direction", JStr "remote_to_base");
                     ("transfer_id", JStr "../p1")] in
  let w := with_inbox [("transfer.json", Doc meta);
                       ("config.json", Text "x")] base_world in
  files w !! Path "/lab/p1/config.json" = Some (Text "cfg1") ∧
  (_import_on_base inbox meta w).1 = Ok JNull ∧
  files (_import_on_base inbox meta w).2 !! Path "/lab/p1/config.json"
  = Some (Text "x").
Proof. vm_compute. done. Qed.

End ImportMoreScenario.

(** ** Export in copy mode *)

Section ExportMore.
Import PyPath PyObj Transfer.
Context (api : PipeLineAPI) (clock : Clock).
Implicit Types (w : World).

Lemma dict_get_set k v items : dict_get k (dict_set k v items) = Some v.
Proof.
  induction items as [|[k' v'] items IH]; simpl.
  - by rewrite decide_True.
  - destruct (decide (k' = k)) as [->|Hne]; simpl.
    + by rewrite decide_True.
    + by rewrite decide_False.
Qed.

Lemma dict_get_set_ne k k' v items :
  k' ≠ k → dict_get k' (dict_set k v items) = dict_get k' items.
Proof.
  intros Hne. induction items as [|[k0 v0] items IH]; simpl.
  - by rewrite decide_False.
  - destruct (decide (k0 = k)) as [->|Hk]; simpl.
    + by rewrite !decide_False.
    + destruct (decide (k0 = k')); [done|apply IH].
Qed.

Lemma guarded_stage_artifact P I lab_base zp pplid art :
  guarded P I → P zp → preserves I (stage_artifact api lab_base zp pplid art).
Proof.
  intros HI Hp. unfold stage_artifact.
  repeat preserves_step; by apply (guarded_zip_write P).
Qed.

Lemma guarded_stage_pipeline P I lab_base zp pplid :
  guarded P I → P zp → preserves I (stage_pipeline api lab_base zp pplid).
Proof.
  intros HI Hp. unfold stage_pipeline.
  repeat preserves_step;
    first [by apply (guarded_zip_write P)|by apply (guarded_stage_artifact P)].
Qed.

Lemma guarded_write_base_archive P I lab_base zp ppls meta :
  guarded P I → P zp →
  preserves I (write_base_archive api lab_base zp ppls meta).
Proof.
  intros HI Hp. unfold write_base_archive, Zipfile.create, Zipfile.writestr.
  repeat preserves_step;
    first [ by apply (guarded_write_file P)
          | by apply (guarded_stage_pipeline P)
          | by apply (guarded_append P) ].
Qed.

Lemma guarded_register_transfer P I clone_dir transfer_id :
  guarded P I → P (clone_dir // "clone.json") →
  preserves I (register_transfer clone_dir transfer_id).
Proof.
  intros HI Hp. unfold register_transfer.
  repeat first
    [ preserves_step
    | by apply (guarded_write_file P)
    | match goal with |- preserves _ (match ?x with _ => _ end) =>
        destruct x end ].
Qed.

Lemma guarded_results_artifact P I zp pplid art :
  guarded P I → P zp → preserves I (results_artifact api zp pplid art).
Proof.
  intros HI Hp. unfold results_artifact.
  repeat preserves_step; by apply (guarded_zip_write P).
Qed.

Lemma guarded_write_results_archive P I zp ppls meta :
  guarded P I → P zp → preserves I (write_results_archive api zp ppls meta).
Proof.
  intros HI Hp. unfold write_results_archive, Zipfile.create,
    Zipfile.writestr.
  repeat preserves_step;
    first [ by apply (guarded_write_file P)
          | by apply (guarded_results_artifact P)
          | by apply (guarded_append P) ].
Qed.

(** What the archive block of the base export returns, when it returns. *)
Lemma build_ok_paths ppls clone_id transfer_type w cd zp tid w' :
  build_base_archive api clock ppls clone_id transfer_type w
    = (Ok (cd, zp, tid), w') →
  zp = base_zip_path_of clock w clone_id ∧ tid = mint_transfer_id clock "t_".
Proof.
  unfold build_base_archive, base_zip_path_of.
  erewrite bind_ok by reflexivity.
  unfold _ensure_base. destruct (decide _); [|done].
  erewrite bind_ok by reflexivity. erewrite bind_ok by reflexivity.
  destruct (negb _); [done|].
  unfold bind at 1. destruct (Fs.mkdir _ _ _ w) as [[[]|err] w1]; [|done].
  unfold bind at 1.
  destruct (write_base_archive _ _ _ _ _ w1) as [[[]|err] w2]; [|done].
  by intros [= <- <- <- <-].
Qed.

Lemma build_keeps_file ppls clone_id transfer_type q w :
  q ≠ base_zip_path_of clock w clone_id →
  files (build_base_archive api clock ppls clone_id transfer_type w).2 !! q
  = files w !! q.
Proof.
  intros Hq. unfold build_base_archive, base_zip_path_of in *.
  erewrite bind_ok by reflexivity.
  unfold _ensure_base. destruct (decide _); [|done].
  erewrite bind_ok by reflexivity. erewrite bind_ok by reflexivity.
  destruct (negb _); [done|].
  match goal with |- files (bind ?m ?k w).2 !! _ = _ =>
    cut (preserves (file_is q (files w !! q)) (bind m k));
      [intros H; exact (H w eq_refl)|] end.
  pose proof (file_is_guarded q (files w !! q)) as HI.
  repeat first
    [ preserves_step
    | by apply (guarded_mkdir (λ p, p ≠ q))
    | by apply (guarded_write_base_archive (λ p, p ≠ q)); [|by apply not_eq_sym] ].
Qed.

(** A base export in a mode other than ["move"] changes no regular file
    but the archive it writes and the [clone.json] of the target clone,
    whether it returns or raises. *)
Theorem base_export_copy_keeps_sources ppls clone_id transfer_type mode q w :
  mode ≠ "move" →
  q ≠ base_zip_path_of clock w clone_id →
  q ≠ clone_json_of w clone_id →
  files (_export_base_to_remote api clock ppls clone_id transfer_type mode
           w).2 !! q
  = files w !! q.
Proof.
  intros Hmode Hzp Hcj. unfold _export_base_to_remote.
  pose proof (build_keeps_file ppls clone_id transfer_type q w Hzp) as Hb.
  unfold bind at 1.
  destruct (build_base_archive api clock ppls clone_id transfer_type w)
    as [[[[cd zp] tid]|e] w1] eqn:Hbuild; [|done].
  simpl in Hb. rewrite <-Hb.
  apply build_ok_sealed in Hbuild as [Hcd _].
  match goal with |- files (?m w1).2 !! _ = _ =>
    cut (preserves (file_is q (files w1 !! q)) m);
      [intros H; exact (H w1 eq_refl)|] end.
  pose proof (file_is_guarded q (files w1 !! q)) as HI.
  repeat first [preserves_step|done].
  apply (guarded_register_transfer (λ p, p ≠ q)); [done|].
  rewrite Hcd. by apply not_eq_sym.
Qed.

(** A results export in a mode other than ["move"] changes no regular
    file but the archive it writes. *)
Theorem results_export_copy_keeps_sources ppls prev mode q w :
  mode ≠ "move" →
  q ≠ results_zip_path_of clock w →
  files (_export_remote_to_base api clock ppls prev mode w).2 !! q
  = files w !! q.
Proof.
  intros Hmode Hzp. unfold _export_remote_to_base, results_zip_path_of in *.
  erewrite bind_ok by reflexivity.
  match goal with |- files (bind ?m ?k w).2 !! _ = _ =>
    cut (preserves (file_is q (files w !! q)) (bind m k));
      [intros H; exact (H w eq_refl)|] end.
  pose proof (file_is_guarded q (files w !! q)) as HI.
  unfold _ensure_remote.
  repeat first
    [ preserves_step
    | by apply (guarded_mkdir (λ p, p ≠ q))
    | by apply (guarded_write_results_archive (λ p, p ≠ q));
        [|by apply not_eq_sym]
    | done ].
Qed.

Lemma register_transfer_ok clone_dir tid w w' :
  register_transfer clone_dir tid w = (Ok (), w') →
  ∃ items old,
    files w !! (clone_dir // "clone.json") = Some (Doc (JDict items)) ∧
    (dict_get "transfers" items = Some (JList old) ∨
     dict_get "transfers" items = None ∧ old = []) ∧
    files w'
    = <[clone_dir // "clone.json" :=
          Doc (JDict (dict_set "transfers" (JList (old ++ [JStr tid]))
                        items))]> (files w).
Proof.
  unfold register_transfer.
  destruct (files w !! (clone_dir // "clone.json")) as [d|] eqn:Hd.
  2:{ erewrite bind_raise; [done|].
      unfold Fs.read_file, bind, get_world. by rewrite Hd. }
  erewrite bind_ok
    by (unfold Fs.read_file, bind, get_world; by rewrite Hd).
  destruct d as [s|[| | | | |items]|ms]; try done.
  erewrite bind_ok by reflexivity.
  assert (∀ d, Fs.write_file (clone_dir // "clone.json") d w = (Ok (), w') →
               files w' = <[clone_dir // "clone.json" := d]> (files w))
    as Hwrite.
  { intros d. unfold Fs.write_file, bind, get_world, modify, raise.
    repeat (match goal with |- context [if ?b then _ else _] =>
              destruct b end; try done).
    by intros [= <-]. }
  cbv beta iota.
  destruct (dict_get "transfers" items) as [[| | | |old|]|] eqn:Ht; try done.
  - intros Hw%Hwrite. exists items, old. by eauto.
  - intros Hw%Hwrite. exists items, []. by eauto.
Qed.

(** After a base export in a mode other than ["move"] has returned, the
    archive at the returned path ends with [transfer.json], and
    [clone.json] is the registry from before with the new transfer id
    appended to its [transfers] list (a list holding just that id when
    there was none); no other key of the registry changes. *)
Theorem base_export_registers ppls clone_id transfer_type mode w zp w' :
  mode ≠ "move" →
  _export_base_to_remote api clock ppls clone_id transfer_type mode w
    = (Ok zp, w') →
  zp = base_zip_path_of clock w clone_id ∧
  (∃ ms meta,
     files w' !! zp = Some (Zip (ms ++ [("transfer.json", Doc meta)]))) ∧
  ∃ items old,
    files w !! clone_json_of w clone_id = Some (Doc (JDict items)) ∧
    (dict_get "transfers" items = Some (JList old) ∨
     dict_get "transfers" items = None ∧ old = []) ∧
    files w' !! clone_json_of w clone_id
    = Some (Doc (JDict (dict_set "transfers"
         (JList (old ++ [JStr (mint_transfer_id clock "t_")])) items))).
Proof.
  intros Hmode. unfold _export_base_to_remote. unfold bind at 1.
  pose proof (build_keeps_registry api clock ppls clone_id transfer_type w)
    as Hkeep.
  destruct (build_base_archive api clock ppls clone_id transfer_type w)
    as [[[[cd zp0] tid]|e] w1] eqn:Hbuild; [|done].
  destruct (build_ok_paths _ _ _ _ _ _ _ _ Hbuild) as [-> ->].
  destruct (build_ok_sealed _ _ _ _ _ _ _ _ _ _ Hbuild)
    as (Hcd & ms & meta & Hsealed).
  simpl in Hkeep. unfold bind at 1.
  destruct (register_transfer cd (mint_transfer_id clock "t_") w1)
    as [[[]|e] w2] eqn:Hreg; [|done].
  rewrite decide_False by done. intros [= <- <-].
  apply register_transfer_ok in Hreg as (items & old & Hcj & Hold & Hw2).
  rewrite Hcd, Hkeep in Hcj. split; [done|]. split.
  - exists ms, meta. rewrite Hw2, lookup_insert_ne; [done|].
    unfold base_zip_path_of, clone_json_of in *. rewrite Hcd.
    apply not_eq_sym, zip_path_ne_clone_json.
  - exists items, old. split_and!; [done..|].
    by rewrite Hw2, Hcd, lookup_insert_eq.
Qed.

(** After a results export in a mode other than ["move"] has returned,
    the archive at the returned path starts with [transfer.json], which
    records the direction [remote_to_base], the type [results] and the
    requested ids; the staged results follow it. *)
Theorem results_export_starts_with_metadata ppls prev mode w zp w' :
  mode ≠ "move" →
  _export_remote_to_base api clock ppls prev mode w = (Ok zp, w') →
  zp = results_zip_path_of clock w ∧
  ∃ origin ms,
    lab_id (settings w) = Some origin ∧
    files w' !! zp
    = Some (Zip (("transfer.json",
                  Doc (results_meta clock origin (mint_transfer_id clock "r_")
                         prev ppls)) :: ms)).
Proof.
  intros Hmode. unfold _export_remote_to_base, results_zip_path_of.
  erewrite bind_ok by reflexivity.
  unfold _ensure_remote. destruct (decide _); [|done].
  erewrite bind_ok by reflexivity.
  unfold bind at 1. destruct (Fs.mkdir _ _ _ w) as [[[]|err] w1]; [|done].
  destruct (lab_id (settings w)) as [origin|]; [|done].
  erewrite bind_ok by reflexivity.
  set (zp0 := _ // (mint_transfer_id clock "r_" +:+ ".zip")).
  set (meta := results_meta _ _ _ _ _).
  destruct (Zipfile.create zp0 w1) as [[[]|err] w2] eqn:Hc.
  2:{ erewrite bind_raise; [done|].
      unfold write_results_archive. eapply bind_raise. exact Hc. }
  pose proof (write_results_archive_meta_first api zp0 ppls meta w1 w2 Hc)
    as [ms Hms].
  unfold bind at 1.
  destruct (write_results_archive api zp0 ppls meta w1) as [[[]|err] w3];
    [|done].
  rewrite decide_False by done. intros [= <- <-].
  split; [done|]. by exists origin, ms.
Qed.

End ExportMore.

Section ExportMoreScenario.
Import PyPath PyObj Transfer Scenario.

Lemma base_export_copy_keeps_sources_witness :
  "copy" ≠ "move" ∧
  Path "/lab/p1/out/r.txt" ≠ base_zip_path_of clk base_world "c1" ∧
  Path "/lab/p1/out/r.txt" ≠ clone_json_of base_world "c1" ∧
  files (_export_base_to_remote api0 clk ["p1"] "c1" "run" "copy"
           base_world).2 !! Path "/lab/p1/out/r.txt"
  = files base_world !! Path "/lab/p1/out/r.txt".
Proof.
  assert ("copy" ≠ "move") as Hm by done.
  assert (Path "/lab/p1/out/r.txt" ≠ base_zip_path_of clk base_world "c1")
    as Hz by (by vm_compute).
  assert (Path "/lab/p1/out/r.txt" ≠ clone_json_of base_world "c1")
    as Hc by (by vm_compute).
  split_and!; [done..|].
  exact (base_export_copy_keeps_sources api0 clk ["p1"] "c1" "run" "copy"
           (Path "/lab/p1/out/r.txt") base_world Hm Hz Hc).
Defined.

Lemma results_export_copy_keeps_sources_witness :
  "copy" ≠ "move" ∧
  Path "/lab/p1/out/r.txt" ≠ results_zip_path_of clk remote_world ∧
  files (_export_remote_to_base api0 clk ["p1"] None "copy" remote_world).2
    !! Path "/lab/p1/out/r.txt"
  = files remote_world !! Path "/lab/p1/out/r.txt".
Proof.
  assert ("copy" ≠ "move") as Hm by done.
  assert (Path "/lab/p1/out/r.txt" ≠ results_zip_path_of clk remote_world)
    as Hz by (by vm_compute).
  split_and!; [done..|].
  exact (results_export_copy_keeps_sources api0 clk ["p1"] None "copy"
           (Path "/lab/p1/out/r.txt") remote_world Hm Hz).
Defined.

Lemma base_export_registers_witness :
  "copy" ≠ "move" ∧
  (_export_base_to_remote api0 clk ["p1"] "c1" "run" "copy" base_world).1
    = Ok base_zip ∧
  ∃ items old,
    files base_world !! clone_json_of base_world "c1"
      = Some (Doc (JDict items)) ∧
    (dict_get "transfers" items = Some (JList old) ∨
     dict_get "transfers" items = None ∧ old = []) ∧
    files (_export_base_to_remote api0 clk ["p1"] "c1" "run" "copy"
             base_world).2 !! clone_json_of base_world "c1"
    = Some (Doc (JDict (dict_set "transfers"
         (JList (old ++ [JStr (mint_transfer_id clk "t_")])) items))).
Proof.
  assert ("copy" ≠ "move") as Hm by done.
  split; [exact Hm|]. split; [by vm_compute|].
  eapply (base_export_registers api0 clk ["p1"] "c1" "run" "copy" base_world
            base_zip); [exact Hm|].
  apply surjective_pairing.
Defined.

Lemma results_export_starts_with_metadata_witness :
  "copy" ≠ "move" ∧
  (_export_remote_to_base api0 clk ["p1"] None "copy" remote_world).1
    = Ok remote_zip ∧
  ∃ origin ms,
    lab_id (settings remote_world) = Some origin ∧
    files (_export_remote_to_base api0 clk ["p1"] None "copy" remote_world).2
      !! remote_zip
    = Some (Zip (("transfer.json",
                  Doc (results_meta clk origin (mint_transfer_id clk "r_")
                         None ["p1"])) :: ms)).
Proof.
  assert ("copy" ≠ "move") as Hm by done.
  split; [exact Hm|]. split; [by vm_compute|].
  eapply (results_export_starts_with_metadata api0 clk ["p1"] None "copy"
            remote_world remote_zip); [exact Hm|].
  apply surjective_pairing.
Defined.

End ExportMoreScenario.

(** ** The clone report *)

Section CloneReport.
Import PyPath PyObj Transfer.
Implicit Types (w : World) (rows : list (list (string * json))).










(** Outside a base lab [get_clones] raises [RuntimeError] and reads
    nothing. *)
Theorem get_clones_role_gate w :
  lab_role (settings w) ≠ Some "base" →
  get_clones w
  = (Raise (RuntimeError "get_clones() is allowed only in BASE lab"), w).
Proof.
  intros Hrole. unfold get_clones. erewrite bind_ok by reflexivity.
  by rewrite decide_True.
Qed.

(** [get_clones] only reads: whatever it returns or raises, the world is
    the one it was called in. *)
Theorem get_clones_read_only w : (get_clones w).2 = w.
Proof.
  cut (preserves (λ w', w' = w) get_clones); [by intros H; apply H|].
  assert (∀ rows entries, preserves (λ w', w' = w) (clone_loop rows entries))
    as Hloop.
  { intros rows entries. revert rows.
    induction entries as [|d entries IH]; intros rows; simpl.
    - apply preserves_ret.
    - apply preserves_bind; [|by intros ?].
      unfold clone_turn, clone_record. repeat preserves_step. }
  unfold get_clones, get_shared_data.
  repeat first [apply Hloop|preserves_step].
Qed.


End CloneReport.

Section CloneReportScenario.
Import PyPath PyObj Transfer Scenario.

Lemma get_clones_role_gate_witness :
  lab_role (settings remote_world) ≠ Some "base" ∧
  get_clones remote_world
  = (Raise (RuntimeError "get_clones() is allowed only in BASE lab"),
     remote_world).
Proof.
  assert (lab_role (settings remote_world) ≠ Some "base") as Hrole by done.
  split; [exact Hrole|]. exact (get_clones_role_gate remote_world Hrole).
Defined.

End CloneReportScenario.

Section CloneReportFreshLab.
Import PyPath PyObj Transfer Scenario.

(** A base lab that has no [Clones] directory yet. *)
Lemma get_clones_no_directory_witness :
  lab_role (settings fresh_base) = Some "base" ∧
  Fs.exists_ fresh_base (Path (data_path (settings fresh_base)) // "Clones")
    = false ∧
  get_clones fresh_base
  = (Ok (DataFrame_of_columns clone_columns), fresh_base).
Proof.
  split; [reflexivity|]. split; [reflexivity|].
  apply (get_clones_no_directory fresh_base); reflexivity.
Defined.

End CloneReportFreshLab.

(** ** Path and location remapping *)

Section MappingFacts.
Import PyPath PyObj Transfer.

Lemma prefix_split pre s :
  String.prefix pre s = true → s = pre +:+ PyStr.drop (String.length pre) s.
Proof.
  revert s. induction pre as [|c pre IH]; intros s; [done|].
  destruct s as [|c' s]; [done|]. cbn [String.prefix].
  destruct (ascii_dec c c') as [<-|]; [|done].
  intros Hp%IH. simpl. unfold String.app. simpl. by f_equal.
Qed.

Lemma replace_first_prefix s old new :
  String.prefix old s = true →
  PyStr.replace_first s old new = new +:+ PyStr.drop (String.length old) s.
Proof. intros Hp. destruct s; cbn [PyStr.replace_first]; by rewrite Hp. Qed.

(** [map_path] of [plf1/transfer.py] rewrites with the first entry of the
    map whose key is a string prefix of the normalised path: the key is
    cut off the front and the mapped value put in its place. The test is
    on characters, not on path components. *)
Theorem map_path_first_match c path l1 src dst l2 :
  rc_path_map c = l1 ++ (src, dst) :: l2 →
  (∀ kv, kv ∈ l1 → PyStr.startswith (as_posix (Path path)) kv.1 = false) →
  PyStr.startswith (as_posix (Path path)) src = true →
  ∃ rest, as_posix (Path path) = src +:+ rest ∧
          map_path c path = dst +:+ rest.
Proof.
  intros Hmap Hnone Hsrc. unfold map_path. rewrite Hmap. clear Hmap.
  generalize dependent (as_posix (Path path)). intros p Hnone Hsrc.
  exists (PyStr.drop (String.length src) p).
  split; [by apply prefix_split|].
  induction l1 as [|[k v] l1 IH]; cbn [map_path_loop app].
  - rewrite Hsrc. by apply replace_first_prefix.
  - pose proof (Hnone (k, v) ltac:(by left)) as Hk. cbn [fst] in Hk.
    rewrite Hk. apply IH. intros kv Hkv. apply Hnone. by right.
Qed.

(** When no key of the map is a prefix of the normalised path, in
    particular when the map is empty, [map_path] returns the normalised
    path. *)
Theorem map_path_no_match c path :
  (∀ kv, kv ∈ rc_path_map c →
         PyStr.startswith (as_posix (Path path)) kv.1 = false) →
  map_path c path = as_posix (Path path).
Proof.
  unfold map_path. generalize (as_posix (Path path)). intros p.
  induction (rc_path_map c) as [|[k v] l IH]; intros Hnone;
    cbn [map_path_loop]; [done|].
  pose proof (Hnone (k, v) ltac:(by left)) as Hk. cbn [fst] in Hk.
  rewrite Hk. apply IH. intros kv Hkv. apply Hnone. by right.
Qed.

End MappingFacts.

Section MappingScenario.
Import PyPath PyObj Transfer Scenario.

(** The key ["/data"] also matches ["/database/x"]. *)
Lemma map_path_first_match_witness :
  rc_path_map two_prefixes = [("/other", "/o")] ++ ("/data", "/mnt/d") :: [] ∧
  (∀ kv, kv ∈ [("/other", "/o")] →
         PyStr.startswith (as_posix (Path "/database/x")) kv.1 = false) ∧
  PyStr.startswith (as_posix (Path "/database/x")) "/data" = true ∧
  ∃ rest, as_posix (Path "/database/x") = "/data" +:+ rest ∧
          map_path two_prefixes "/database/x" = "/mnt/d" +:+ rest.
Proof.
  assert (∀ kv : string * string, kv ∈ [("/other", "/o")] →
            PyStr.startswith (as_posix (Path "/database/x")) kv.1 = false)
    as Hnone.
  { intros kv Hkv. apply list_elem_of_singleton in Hkv as ->. reflexivity. }
  split; [reflexivity|]. split; [exact Hnone|]. split; [reflexivity|].
  exact (map_path_first_match two_prefixes "/database/x" [("/other", "/o")]
           "/data" "/mnt/d" [] eq_refl Hnone eq_refl).
Defined.

Lemma map_path_no_match_witness :
  (∀ kv, kv ∈ rc_path_map two_prefixes →
         PyStr.startswith (as_posix (Path "/x/./y")) kv.1 = false) ∧
  map_path two_prefixes "/x/./y" = as_posix (Path "/x/./y").
Proof.
  assert (∀ kv, kv ∈ rc_path_map two_prefixes →
            PyStr.startswith (as_posix (Path "/x/./y")) kv.1 = false)
    as Hnone.
  { intros kv Hkv. simpl in Hkv.
    apply elem_of_cons in Hkv as [->|Hkv]; [reflexivity|].
    apply list_elem_of_singleton in Hkv as ->. reflexivity. }
  split; [exact Hnone|]. exact (map_path_no_match two_prefixes "/x/./y" Hnone).
Defined.

End MappingScenario.

(** ** The lineage-backed mapper *)

Section MapperFacts.
Import PyPath PyObj Mapper.
Implicit Types (self : TransferContext) (w : World).

Lemma lookup_transfer_str self s items :
  py_item (_cfg self) "ppl_to_transfer" = Ok (JDict items) →
  lookup_transfer self (JStr s) = Ok (dict_get s items).
Proof. intros H. unfold lookup_transfer. by rewrite H. Qed.

Lemma mapper_noop_without_transfer_aux self w s items loc src :
  py_item (_cfg self) "ppl_to_transfer" = Ok (JDict items) →
  no_transfer (dict_get s items) = true →
  map_loc self w loc (JStr s) = Ok (JStr loc) ∧
  map_src self w src (Some (JStr s)) = Ok (as_posix (Path src)).
Proof.
  intros Hcfg Hno. unfold map_loc, map_src.
  rewrite (lookup_transfer_str _ _ _ Hcfg). by rewrite Hno.
Qed.

(** For a pipeline id that [ppl_to_transfer] does not know, or maps to an
    empty value, both mapping functions are no-ops: [map_loc] returns the
    location it was given and [map_src] the normalised path, without
    looking at the disk. *)
Theorem mapper_noop_without_transfer self w s items loc src :
  py_item (_cfg self) "ppl_to_transfer" = Ok (JDict items) →
  no_transfer (dict_get s items) = true →
  map_loc self w loc (JStr s) = Ok (JStr loc) ∧
  map_src self w src (Some (JStr s)) = Ok (as_posix (Path src)).
Proof. apply mapper_noop_without_transfer_aux. Qed.

(** For a pipeline delivered by transfer [tid], [map_loc] is an exact-match
    lookup in the [loc_map] of that transfer's metadata: a location that
    is a key is replaced by its value, any other location comes back
    unchanged. *)
Theorem map_loc_exact_match self w s items tid meta lm loc :
  py_item (_cfg self) "ppl_to_transfer" = Ok (JDict items) →
  dict_get s items = Some (JStr tid) →
  tid ≠ "" →
  files w !! (transfers_dir self // tid // "transfer.json")
    = Some (Doc meta) →
  py_get meta "loc_map" = Ok (Some (JDict lm)) →
  map_loc self w loc (JStr s)
  = Ok (from_option id (JStr loc) (dict_get loc lm)).
Proof.
  intros Hcfg Hs Htid Hfile Hlm. unfold map_loc.
  rewrite (lookup_transfer_str _ _ _ Hcfg), Hs. simpl.
  apply String.eqb_neq in Htid. rewrite Htid. simpl.
  unfold _load_transfer_meta, Fs.exists_, Fs.is_file. rewrite Hfile.
  rewrite bool_decide_eq_true_2 by eauto. rewrite orb_true_r. simpl.
  unfold get_map. by rewrite Hlm.
Qed.

(** When the metadata file of the recorded transfer is missing, [map_loc]
    returns the location unchanged. *)
Theorem map_loc_missing_metadata self w s items tid loc :
  py_item (_cfg self) "ppl_to_transfer" = Ok (JDict items) →
  dict_get s items = Some (JStr tid) →
  Fs.exists_ w (transfers_dir self // tid // "transfer.json") = false →
  map_loc self w loc (JStr s) = Ok (JStr loc).
Proof.
  intros Hcfg Hs Hex. unfold map_loc.
  rewrite (lookup_transfer_str _ _ _ Hcfg), Hs. simpl.
  destruct (negb (negb (tid =? "")%string)); [done|]. simpl.
  unfold _load_transfer_meta. by rewrite Hex.
Qed.

Lemma mkdir_single exist_ok p w :
  let r := Fs.mkdir false exist_ok p w in
  files r.2 = files w ∧ (r.2 = w ∨ dirs r.2 = {[p]} ∪ dirs w).
Proof.
  unfold Fs.mkdir. destruct (length p); simpl;
    unfold bind, get_world, modify, raise, ret; simpl;
    repeat (match goal with |- context [if ?b then _ else _] =>
              destruct b end; simpl; auto).
Qed.

(** A context built in a lab that has no [transfer_config.json] carries
    the default configuration, and with it both mapping functions are
    no-ops for every pipeline id. *)
Theorem fresh_context_maps_nothing w self w' :
  TransferContext_init w = (Ok self, w') →
  Fs.exists_ w (resolve (Path (data_path (settings w))) // "Transfers"
                // "transfer_config.json") = false →
  _cfg self = default_cfg ∧
  ∀ w'' s loc src,
    map_loc self w'' loc (JStr s) = Ok (JStr loc) ∧
    map_src self w'' src (Some (JStr s)) = Ok (as_posix (Path src)).
Proof.
  intros Hinit Hex.
  assert (_cfg self = default_cfg) as Hcfg.
  { revert Hinit. unfold TransferContext_init.
    erewrite bind_ok by reflexivity.
    unfold _load_transfer_config. unfold bind at 1.
    erewrite bind_ok by reflexivity.
    set (td := resolve (Path (data_path (settings w))) // "Transfers") in *.
    destruct (mkdir_single true td w) as [Hf Hd].
    unfold bind at 1.
    destruct (Fs.mkdir false true td w) as [[[]|e] w1]; [|done]. simpl in *.
    erewrite bind_ok by reflexivity.
    assert (Fs.exists_ w1 (td // "transfer_config.json") = false) as ->.
    { revert Hex. unfold Fs.exists_, Fs.is_dir, Fs.is_file. rewrite Hf.
      destruct Hd as [Hd | Hd]; rewrite Hd; [done|].
      intros [[Hdir%bool_decide_eq_false Hroot]%orb_false_iff Hfile]%orb_false_iff.
      rewrite Hroot, Hfile, !orb_false_r. apply bool_decide_eq_false.
      intros [Heq%elem_of_singleton|?]%elem_of_union; [|done].
      unfold joinpath in Heq. simpl in Heq.
      apply (f_equal length) in Heq. rewrite length_app in Heq. simpl in Heq.
      lia. }
    simpl. by intros [= <- <-]. }
  split; [done|]. intros w'' s loc src.
  apply (mapper_noop_without_transfer_aux self w'' s [] loc src);
    [by rewrite Hcfg|done].
Qed.

End MapperFacts.

(** ** Config rewriting *)

Section ConfigRewriting.
Import PyPath PyObj Mapper.

Lemma json_nested_ind (P : json → Prop) :
  P JNull → (∀ b, P (JBool b)) → (∀ n, P (JNum n)) → (∀ s, P (JStr s)) →
  (∀ l, Forall P l → P (JList l)) →
  (∀ items, Forall (λ kv, P kv.2) items → P (JDict items)) →
  ∀ j, P j.
Proof.
  intros Hnull Hbool Hnum Hstr Hlist Hdict. fix IH 1.
  intros [|b|n|s|l|items].
  - exact Hnull.
  - apply Hbool.
  - apply Hnum.
  - apply Hstr.
  - apply Hlist. induction l as [|x l IHl]; constructor;
      [apply IH|apply IHl].
  - apply Hdict. induction items as [|[k v] items IHi]; constructor;
      [apply IH|apply IHi].
Qed.

Lemma only_locs_differ_refl j : only_locs_differ j j.
Proof.
  induction j as [| | | |l Hl|items Hi] using json_nested_ind;
    try reflexivity.
  - simpl. induction Hl; simpl; auto.
  - simpl. induction Hi as [|[k v] items Hv _ IH]; simpl; [done|].
    split; [|exact IH]. split; [done|].
    by destruct (PyStr.contains "loc" k && is_str v).
Qed.

Lemma all2_refl {A : Type} (R : A → A → Prop) (l : list A) :
  (∀ x, R x x) → all2 R l l.
Proof. intros HR. induction l; simpl; auto. Qed.

Lemma remap_only_locs self w pplid d :
  only_locs_differ d (remap self w pplid d).2.
Proof.
  induction d as [| | | |l Hl|items Hi] using json_nested_ind;
    try reflexivity.
  - cbn [remap].
    match goal with |- context [?f l] => is_fix f; set (F := f) end.
    enough (all2 only_locs_differ l (F l).2) as H
      by (destruct (F l); exact H).
    induction Hl as [|x l Hx _ IH]; [done|].
    cbn [F]. fold F.
    destruct (remap self w pplid x) as [o x'] eqn:Ex. simpl in Hx.
    destruct o as [[]|e].
    + destruct (F l) as [o' rest']. simpl in *. auto.
    + simpl. split; [done|]. apply all2_refl, only_locs_differ_refl.
  - cbn [remap].
    match goal with |- context [?f items] => is_fix f; set (F := f) end.
    enough (all2 (λ x y, match x, y with
                         | (k, v), (k', v') =>
                             k = k' ∧
                             if PyStr.contains "loc" k && is_str v then True
                             else only_locs_differ v v'
                         end) items (F items).2) as H
      by (destruct (F items); exact H).
    induction Hi as [|[k v] items Hv _ IH]; [done|].
    cbn [F]. fold F. simpl in Hv.
    set (step := if PyStr.contains "loc" k && is_str v then _ else _).
    assert (if PyStr.contains "loc" k && is_str v then True
            else only_locs_differ v step.2) as Hstep.
    { subst step. destruct (PyStr.contains "loc" k && is_str v); [done|].
      destruct (PyStr.contains "src" k && is_str v); [|exact Hv].
      destruct v; apply only_locs_differ_refl. }
    destruct step as [o v']. simpl in Hstep.
    destruct o as [[]|e].
    + destruct (F items) as [o' rest']. simpl in *. auto.
    + simpl. split; [done|].
      apply all2_refl. intros [k0 v0]. split; [done|].
      destruct (PyStr.contains "loc" k0 && is_str v0); [done|].
      apply only_locs_differ_refl.
Qed.

(** Whatever the world and whatever the outcome, [map_cnfg] leaves the
    config with the keys it had, in the same order, and every list with
    the length it had; the only values that can differ are strings stored
    under a key that contains [loc]. A value it returns is the config
    object itself. *)
Theorem map_cnfg_touches_only_locs self w cnfg :
  only_locs_differ cnfg (map_cnfg self w cnfg).2 ∧
  ∀ v, (map_cnfg self w cnfg).1 = Ok v → v = (map_cnfg self w cnfg).2.
Proof.
  unfold map_cnfg. destruct (py_item cnfg "pplid") as [pplid|e].
  - pose proof (remap_only_locs self w pplid cnfg) as H.
    destruct (remap self w pplid cnfg) as [[[]|e] cnfg']; simpl in *;
      (split; [exact H|]); [by intros v [= <-]|done].
  - simpl. split; [apply only_locs_differ_refl|done].
Qed.

End ConfigRewriting.

Section MapperScenario.
Import PyPath PyObj Mapper Scenario.

(** Pipeline [p9] was not delivered by any transfer. *)
Lemma mapper_noop_without_transfer_witness :
  map_loc lineage mapped_world "A" (JStr "p9") = Ok (JStr "A") ∧
  map_src lineage mapped_world "/data/./x" (Some (JStr "p9"))
  = Ok (as_posix (Path "/data/./x")).
Proof.
  exact (mapper_noop_without_transfer lineage mapped_world "p9"
           [("p1", JStr "t1")] "A" "/data/./x" eq_refl eq_refl).
Defined.

(** Pipeline [p1] came with transfer [t1], whose [loc_map] sends [A] to
    [B]. *)
Lemma map_loc_exact_match_witness :
  map_loc lineage mapped_world "A" (JStr "p1") = Ok (JStr "B") ∧
  map_loc lineage mapped_world "AA" (JStr "p1") = Ok (JStr "AA").
Proof.
  assert (files mapped_world
            !! (transfers_dir lineage // "t1" // "transfer.json")
          = Some (Doc t1_meta)) as Hfile by (vm_compute; reflexivity).
  assert ("t1" ≠ "") as Hne by discriminate.
  split.
  - exact (map_loc_exact_match lineage mapped_world "p1" [("p1", JStr "t1")]
             "t1" t1_meta [("A", JStr "B")] "A"
             eq_refl eq_refl Hne Hfile eq_refl).
  - apply (map_loc_exact_match lineage mapped_world "p1" [("p1", JStr "t1")]
             "t1" t1_meta [("A", JStr "B")] "AA"
             eq_refl eq_refl Hne Hfile eq_refl).
Defined.

(** The lineage names transfer [t1], but the lab holds no metadata for
    it. *)
Lemma map_loc_missing_metadata_witness :
  Fs.exists_ remote_world (transfers_dir lineage // "t1" // "transfer.json")
  = false ∧
  map_loc lineage remote_world "A" (JStr "p1") = Ok (JStr "A").
Proof.
  assert (Fs.exists_ remote_world
            (transfers_dir lineage // "t1" // "transfer.json") = false)
    as Hex by (vm_compute; reflexivity).
  split; [exact Hex|].
  exact (map_loc_missing_metadata lineage remote_world "p1"
           [("p1", JStr "t1")] "t1" "A" eq_refl eq_refl Hex).
Defined.

(** The remote lab of the scenario has no [Transfers] directory yet. *)
Lemma fresh_context_maps_nothing_witness :
  let self := {| transfers_dir := Path "/lab/Transfers";
                 _cfg := default_cfg |} in
  (TransferContext_init remote_world).1 = Ok self ∧
  _cfg self = default_cfg ∧
  ∀ w s loc src,
    map_loc self w loc (JStr s) = Ok (JStr loc) ∧
    map_src self w src (Some (JStr s)) = Ok (as_posix (Path src)).
Proof.
  intros self.
  assert (TransferContext_init remote_world
          = (Ok self, (TransferContext_init remote_world).2)) as Hinit
    by (vm_compute; reflexivity).
  assert (Fs.exists_ remote_world
            (resolve (Path (data_path (settings remote_world)))
             // "Transfers" // "transfer_config.json") = false) as Hex
    by (vm_compute; reflexivity).
  split; [by rewrite Hinit|].
  exact (fresh_context_maps_nothing remote_world self _ Hinit Hex).
Defined.

End MapperScenario.
